(** * fibery-mcp-server: the query and search tools

    A shallow embedding of [fibery_mcp_server/tools/query.py] and
    [fibery_mcp_server/tools/search.py], and the properties of the query
    document builder, the rich-text resolver and the search scanner.

    Python values are the JSON-shaped values the tools receive and produce.
    A [dict] keeps its insertion order, so it is an association list whose
    keys are pairwise distinct; a JSON number is modelled by its integer
    case, and a string by the bytes of its UTF-8 encoding.  On that
    encoding the substring test, [replace], [split] and [startswith] with
    ASCII arguments are the byte-wise ones; [str.lower()], which follows
    the Unicode character table, is a parameter of the search scanner. *)

From Stdlib Require Import ZArith String Ascii List DecimalString Lia.
From stdpp Require Import base option list strings gmap.
Import ListNotations.

Open Scope Z_scope.
Open Scope string_scope.

(** ** Python values *)

#[local] Set Warnings "-register-all".

Inductive pyval : Type :=
  | PNone
  | PBool (b : bool)
  | PInt (n : Z)
  | PStr (s : string)
  | PList (items : list pyval)
  | PTuple (items : list pyval)
  | PDict (entries : list (string * pyval)).

Abbreviation dict := (list (string * pyval)).

Inductive exn : Type :=
  | KeyError
  | IndexError
  | TypeError
  | AttributeError.

(** The outcome of a call: a value, or a raised exception. *)
Inductive outcome (A : Type) : Type :=
  | Return (a : A)
  | Raise (e : exn).

Arguments Return {A} a.
Arguments Raise {A} e.

Definition bind {A B : Type} (m : outcome A) (k : A -> outcome B) : outcome B :=
  match m with
  | Return a => k a
  | Raise e => Raise e
  end.

Notation "x <- m ;; k" := (bind m (fun x => k))
  (at level 100, m at next level, right associativity).

(** [bool(v)]: the truth value of [v], as tested by [if v] and [not v]. *)
Definition truthy (v : pyval) : bool :=
  match v with
  | PNone => false
  | PBool b => b
  | PInt n => negb (n =? 0)%Z
  | PStr s => negb (s =? "")
  | PList items | PTuple items => negb (Nat.eqb (length items) 0)
  | PDict entries => negb (Nat.eqb (length entries) 0)
  end.

(** [v is None]. *)
Definition is_none (v : pyval) : bool :=
  match v with PNone => true | _ => false end.

(** [hash(v)] is defined: lists and dicts are unhashable, a tuple is
    hashable when its items are. *)
Fixpoint hashable (v : pyval) : bool :=
  match v with
  | PList _ | PDict _ => false
  | PTuple items => forallb hashable items
  | _ => true
  end.

(** [value == s] for a string [s]: only an equal string compares equal. *)
Definition eq_str (value : pyval) (s : string) : bool :=
  match value with
  | PStr t => t =? s
  | _ => false
  end.

(** ** Insertion-ordered dicts *)

(** [d.get(k)], and [k in d] when the result is [Some]. *)
Fixpoint dict_get {V : Type} (d : list (string * V)) (k : string) : option V :=
  match d with
  | [] => None
  | (k', v) :: rest => if k' =? k then Some v else dict_get rest k
  end.

(** [d[k] = v]: an existing key keeps its position, a new key goes last. *)
Fixpoint dict_set {V : Type} (d : list (string * V)) (k : string) (v : V)
    : list (string * V) :=
  match d with
  | [] => [(k, v)]
  | (k', v') :: rest =>
      if k' =? k then (k', v) :: rest else (k', v') :: dict_set rest k v
  end.

Definition dict_keys {V : Type} (d : list (string * V)) : list string := map fst d.
Definition dict_values (d : dict) : list pyval := map snd d.

(** [d1 | d2]: the entries of [d1], then those of [d2] laid over them. *)
Definition dict_merge (d1 d2 : dict) : dict :=
  fold_left (fun acc kv => dict_set acc (fst kv) (snd kv)) d2 d1.

(** The invariant of a Python dict: no key occurs twice. *)
Definition dict_ok (d : dict) : Prop := NoDup (dict_keys d).

(** ** Rendering: [repr] and [str] *)

(** [str(n)] for an int. *)
Definition str_of_int (n : Z) : string := NilZero.string_of_int (Z.to_int n).

Definition backslash : ascii := "092"%char.
Definition single_quote : ascii := "039"%char.
Definition double_quote : ascii := "034"%char.
Definition newline : ascii := "010"%char.

Definition has_char (c : ascii) (s : string) : bool :=
  existsb (Ascii.eqb c) (list_ascii_of_string s).

Definition hex_digit (n : nat) : ascii :=
  nth n (list_ascii_of_string "0123456789abcdef") "0"%char.

(** One byte of a string's [repr], inside the quote [q]: the backslash,
    the quote and the ASCII control characters are escaped; a printable
    ASCII character is kept, and so is every byte of the encoding of a
    character beyond ASCII, which [repr] prints as it is when the
    character is printable. *)
Definition repr_char (q c : ascii) : string :=
  let esc (x : ascii) := String backslash (String x "") in
  if (c =? backslash)%char then esc backslash
  else if (c =? q)%char then esc q
  else if (c =? "009")%char then esc "t"%char
  else if (c =? newline)%char then esc "n"%char
  else if (c =? "013")%char then esc "r"%char
  else
    let n := nat_of_ascii c in
    if (n <? 32)%nat || (n =? 127)%nat
    then String backslash
           (String "x" (String (hex_digit (n / 16)) (String (hex_digit (n mod 16)) "")))
    else String c "".

(** [repr(s)] for a string: single quotes, unless the string has a single
    quote and no double quote. *)
Definition repr_str (s : string) : string :=
  let q := if has_char single_quote s && negb (has_char double_quote s)
           then double_quote else single_quote in
  String q (String.concat "" (map (repr_char q) (list_ascii_of_string s)))
    +:+ String q "".

Fixpoint py_repr (v : pyval) : string :=
  match v with
  | PNone => "None"
  | PBool true => "True"
  | PBool false => "False"
  | PInt n => str_of_int n
  | PStr s => repr_str s
  | PList items => "[" +:+ String.concat ", " (map py_repr items) +:+ "]"
  | PTuple items =>
      match items with
      | [x] => "(" +:+ py_repr x +:+ ",)"
      | _ => "(" +:+ String.concat ", " (map py_repr items) +:+ ")"
      end
  | PDict entries =>
      "{" +:+ String.concat ", "
                (map (fun kv => repr_str (fst kv) +:+ ": " +:+ py_repr (snd kv))
                     entries)
          +:+ "}"
  end.

(** [str(v)], as an f-string field renders [v]. *)
Definition py_str (v : pyval) : string :=
  match v with
  | PStr s => s
  | _ => py_repr v
  end.

(** ** The collaborators *)

(** Modelled from the spec: the schema classes of [fibery_client], which is
    not among the sources.  A [Field] answers [is_rich_text()], a
    [Database] maps field names to fields ([fields_by_name()]), a [Schema]
    maps database names to databases ([databases_by_name()]). *)
Record Field : Type := {
  field_name : string;
  is_rich_text : bool
}.

Record Database : Type := {
  database_name : string;
  fields_by_name : gmap string Field
}.

Record Schema : Type := {
  databases_by_name : gmap string Database
}.

(** Modelled from the spec: the result of the remote query executor, either
    a success with the sequence of entity records or a failure with its
    error detail. *)
Inductive CommandResult : Type :=
  | Succeeded (result : list dict)
  | Failed (detail : pyval).

Definition success (r : CommandResult) : bool :=
  match r with Succeeded _ => true | Failed _ => false end.

(** Modelled from the spec: the client of the remote service, with one
    schema lookup, the query executor [query(document, params)] and the
    document content fetch [get_document_content(handle)]. *)
Record FiberyClient : Type := {
  get_schema : Schema;
  query : pyval -> pyval -> CommandResult;
  get_document_content : pyval -> string
}.

(** [mcp.types.TextContent]. *)
Record TextContent : Type := {
  type : string;
  text : string
}.

(** [m.get(key)] on a map keyed by strings: an unhashable key raises, a key
    that is not a string is never found. *)
Definition map_get {A : Type} (m : gmap string A) (key : pyval) : outcome (option A) :=
  if hashable key then
    Return (match key with PStr s => m !! s | _ => None end)
  else Raise TypeError.

(** [m[key]]. *)
Definition map_subscript {A : Type} (m : gmap string A) (key : pyval) : outcome A :=
  r <- map_get m key ;;
  match r with
  | Some a => Return a
  | None => Raise KeyError
  end.

(** [d[k]] on a dict. *)
Definition dict_subscript (d : dict) (k : string) : outcome pyval :=
  match dict_get d k with
  | Some v => Return v
  | None => Raise KeyError
  end.

(** [d.get(k, dflt)]. *)
Definition dict_get_default (d : dict) (k : string) (dflt : pyval) : pyval :=
  match dict_get d k with
  | Some v => v
  | None => dflt
  end.

(** ** query.py *)

Module Query.

(** *** parse_q_order_by *)

Definition parse_q_order_by (q_order_by : pyval) : outcome pyval :=
  if negb (truthy q_order_by) then Return PNone
  else
    match q_order_by with
    | PDict entries =>
        Return (PList (map (fun '(field, q_order) =>
                              PTuple [PList [PStr field]; q_order]) entries))
    | _ => Raise AttributeError
    end.

(** *** get_rich_text_fields *)

(** An element of [rich_text_fields], the dict with keys [alias] and
    [name]. *)
Record RichTextFieldRef : Type := {
  rt_alias : string;
  rt_name : pyval
}.

Definition ref_dict (field : RichTextFieldRef) : pyval :=
  PDict [("alias", PStr (rt_alias field)); ("name", rt_name field)].

Definition document_secret : string := "Collaboration~Documents/secret".

(** The head of the loop body: the name to look up, or [None] where the
    body says [continue]. *)
Definition leaf_field_name (field_name : pyval) : outcome (option pyval) :=
  match field_name with
  | PDict _ => Return None
  | PStr _ => Return (Some field_name)
  | PList [] => Raise IndexError
  | PList (first :: _) => Return (Some first)
  | _ => Return None
  end.

(** The loop over [safe_q_select.items()].  [items] are the entries still
    to visit; assigning to the key being visited changes no later entry of
    a dict, so they are read from the copy as it was made. *)
Fixpoint rich_text_loop (database : Database) (items : dict)
    (rich_text_fields : list RichTextFieldRef) (safe_q_select : dict)
    : outcome (list RichTextFieldRef * dict) :=
  match items with
  | [] => Return (rich_text_fields, safe_q_select)
  | (field_alias, field_name) :: rest =>
      leaf <- leaf_field_name field_name ;;
      match leaf with
      | None => rich_text_loop database rest rich_text_fields safe_q_select
      | Some field_name =>
          field <- map_get (fields_by_name database) field_name ;;
          match field with
          | None => rich_text_loop database rest rich_text_fields safe_q_select
          | Some field =>
              if is_rich_text field then
                rich_text_loop database rest
                  (rich_text_fields
                     ++ [{| rt_alias := field_alias; rt_name := field_name |}])
                  (dict_set safe_q_select field_alias
                     (PList [field_name; PStr document_secret]))
              else rich_text_loop database rest rich_text_fields safe_q_select
          end
      end
  end.

(** On values, [deepcopy] is the identity; the copy and its separation from
    the caller's dict are the subject of [Store] below. *)
Definition get_rich_text_fields (q_select : dict) (database : Database)
    : outcome (list RichTextFieldRef * dict) :=
  let safe_q_select := q_select in
  rich_text_loop database safe_q_select [] safe_q_select.

(** A field spec resolves to the field name it is, when a string, or to
    its first segment, when a list. *)
Definition resolves_to (spec : pyval) (name : string) : Prop :=
  spec = PStr name \/ exists rest, spec = PList (PStr name :: rest).

(** The database's metadata has the field and flags it rich-text. *)
Definition flagged_rich_text (database : Database) (name : string) : Prop :=
  exists field,
    fields_by_name database !! name = Some field /\ is_rich_text field = true.

(** What a finished run of the loop over [items] has done, from the
    worklist [wl] and the select clause [safe] to [wl'] and [safe']: the
    worklist has only grown, the aliases outside [items] are as they were,
    and each visited alias is either substituted and recorded, or as it
    was. *)
Definition loop_post (database : Database) (items : dict)
    (wl : list RichTextFieldRef) (safe : dict)
    (wl' : list RichTextFieldRef) (safe' : dict) : Prop :=
  (forall r, In r wl -> In r wl')
  /\ (forall k, ~ In k (dict_keys items) -> dict_get safe' k = dict_get safe k)
  /\ (forall field_alias spec,
        In (field_alias, spec) items ->
        (forall name,
           resolves_to spec name -> flagged_rich_text database name ->
           dict_get safe' field_alias
           = Some (PList [PStr name; PStr document_secret])
           /\ In {| rt_alias := field_alias; rt_name := PStr name |} wl')
        /\ ((forall name, resolves_to spec name -> ~ flagged_rich_text database name) ->
            dict_get safe' field_alias = dict_get safe field_alias)).

(** The field specs on which the loop body raises nothing: every shape but
    an empty list and a list whose first segment is unhashable. *)
Definition well_shaped (spec : pyval) : bool :=
  match spec with
  | PList [] => false
  | PList (first :: _) => hashable first
  | _ => true
  end.

(** *** handle_query *)

(** [x.items()] needs a dict. *)
Definition items (x : pyval) : outcome dict :=
  match x with
  | PDict entries => Return entries
  | _ => Raise AttributeError
  end.

(** The first half of [handle_query]: from the arguments to the worklist
    and the wire document [query]. *)
Definition build_query (fibery_client : FiberyClient) (arguments : dict)
    : outcome (list RichTextFieldRef * dict) :=
  q_from <- dict_subscript arguments "q_from" ;;
  q_select <- dict_subscript arguments "q_select" ;;
  let schema := get_schema fibery_client in
  database <- map_subscript (databases_by_name schema) q_from ;;
  q_select_items <- items q_select ;;
  r <- get_rich_text_fields q_select_items database ;;
  let '(rich_text_fields, safe_q_select) := r in
  let base :=
    [("q/from", q_from);
     ("q/select", PDict safe_q_select);
     ("q/limit", dict_get_default arguments "q_limit" (PInt 50))] in
  order_by <- parse_q_order_by (dict_get_default arguments "q_order_by" PNone) ;;
  let optional :=
    List.filter (fun kv => negb (is_none (snd kv)))
      [("q/where", dict_get_default arguments "q_where" PNone);
       ("q/order-by", order_by);
       ("q/offset", dict_get_default arguments "q_offset" PNone)] in
  Return (rich_text_fields, dict_merge base optional).

Definition text_content (s : string) : TextContent :=
  {| type := "text"; text := s |}.

Definition unable_text (entity : dict) (field : RichTextFieldRef) : string :=
  "Unable to get document content for entity " +:+ py_str (PDict entity)
    +:+ ". Field: " +:+ py_str (ref_dict field).

(** The entity has a handle at the field's alias: [entity.get(alias)] is
    there and is not empty. *)
Definition has_handle (entity : dict) (field : RichTextFieldRef) : bool :=
  truthy (dict_get_default entity (rt_alias field) PNone).

(** The inner loop over [rich_text_fields] for one entity: the entity with
    its handles replaced by their content, or the diagnostic text. *)
Fixpoint resolve_entity (fibery_client : FiberyClient) (entity : dict)
    (rich_text_fields : list RichTextFieldRef) : string + dict :=
  match rich_text_fields with
  | [] => inr entity
  | field :: rest =>
      let secret := dict_get_default entity (rt_alias field) PNone in
      if negb (truthy secret) then inl (unable_text entity field)
      else
        resolve_entity fibery_client
          (dict_set entity (rt_alias field)
             (PStr (get_document_content fibery_client secret)))
          rest
  end.

(** The outer loop over [commandResult.result]. *)
Fixpoint resolve_entities (fibery_client : FiberyClient) (entities : list dict)
    (rich_text_fields : list RichTextFieldRef) : string + list dict :=
  match entities with
  | [] => inr []
  | entity :: rest =>
      match resolve_entity fibery_client entity rich_text_fields with
      | inl diagnostic => inl diagnostic
      | inr entity' =>
          match resolve_entities fibery_client rest rich_text_fields with
          | inl diagnostic => inl diagnostic
          | inr rest' => inr (entity' :: rest')
          end
      end
  end.

Section HandleQuery.

(** [str(commandResult)]: the rendering of a [CommandResult], which
    [fibery_client] defines. *)
Variable str_command_result : CommandResult -> string.

Definition handle_query (fibery_client : FiberyClient) (arguments : dict)
    : outcome (list TextContent) :=
  r <- build_query fibery_client arguments ;;
  let '(rich_text_fields, query_document) := r in
  let commandResult :=
    query fibery_client (PDict query_document)
      (dict_get_default arguments "q_params" PNone) in
  match commandResult with
  | Failed _ => Return [text_content (str_command_result commandResult)]
  | Succeeded entities =>
      match resolve_entities fibery_client entities rich_text_fields with
      | inl diagnostic => Return [text_content diagnostic]
      | inr entities' =>
          Return [text_content (str_command_result (Succeeded entities'))]
      end
  end.

End HandleQuery.

End Query.

(** ** search.py *)

Module Search.

(** *** String operations *)

(** [s.lower()] for a string [s] of ASCII characters, on which it turns
    the letters [A] to [Z] into [a] to [z] and keeps the other characters.
    It is the instance of [lower] in the scenarios, whose strings are
    ASCII; the scanner itself takes [lower] as a parameter. *)
Definition ascii_lower_char (c : ascii) : ascii :=
  let n := nat_of_ascii c in
  if (65 <=? n)%nat && (n <=? 90)%nat then ascii_of_nat (n + 32) else c.

Fixpoint ascii_lower (s : string) : string :=
  match s with
  | EmptyString => EmptyString
  | String c rest => String (ascii_lower_char c) (ascii_lower rest)
  end.

(** [needle in haystack] for strings. *)
Fixpoint contains (needle haystack : string) : bool :=
  String.prefix needle haystack
  || match haystack with
     | EmptyString => false
     | String _ rest => contains needle rest
     end.

(** [s.replace(old, new)] for one-character [old] and [new]. *)
Fixpoint replace (old new : ascii) (s : string) : string :=
  match s with
  | EmptyString => EmptyString
  | String c rest =>
      String (if (c =? old)%char then new else c) (replace old new rest)
  end.

(** [s.split(sep)] for a one-character [sep]: [current] is the piece being
    read. *)
Fixpoint split_from (sep : ascii) (current : string) (s : string) : list string :=
  match s with
  | EmptyString => [current]
  | String c rest =>
      if (c =? sep)%char then current :: split_from sep EmptyString rest
      else split_from sep (current +:+ String c EmptyString) rest
  end.

Definition split (sep : ascii) (s : string) : list string :=
  split_from sep EmptyString s.

(** ["/".join(database.split("/")[:-1])]. *)
Definition space_of (database : string) : string :=
  String.concat "/" (removelast (split "/" database)).

(** [k.startswith("_search_")]. *)
Definition is_probe (k : string) : bool := String.prefix "_search_" k.

(** [f"_search_{search_field.replace('/', '_').replace(' ', '_')}"]. *)
Definition probe_alias (search_field : string) : string :=
  "_search_" +:+ replace " " "_" (replace "/" "_" search_field).

(** *** handle_search *)

(** The tool's arguments, with the types its input schema declares;
    [None] is an argument the caller left out. *)
Record SearchArguments : Type := {
  arg_database : string;
  arg_query : string;
  arg_search_fields : option (list string);
  arg_return_fields : option dict;
  arg_limit : option Z;
  arg_offset : option Z
}.

Definition limit_of (arguments : SearchArguments) : Z :=
  default 500 (arg_limit arguments).

Definition offset_of (arguments : SearchArguments) : Z :=
  default 0 (arg_offset arguments).

Definition search_fields_of (arguments : SearchArguments) : list string :=
  match arg_search_fields arguments with
  | Some (f :: fs) => f :: fs
  | _ => [space_of (arg_database arguments) +:+ "/name"]
  end.

Definition return_fields_of (arguments : SearchArguments) : dict :=
  match arg_return_fields arguments with
  | Some (kv :: kvs) => kv :: kvs
  | _ =>
      [("Name", PStr (space_of (arg_database arguments) +:+ "/name"));
       ("Id", PStr "fibery/id")]
  end.

(** [search_field in return_fields.values()]. *)
Definition in_values (search_field : string) (return_fields : dict) : bool :=
  existsb (fun value => eq_str value search_field) (dict_values return_fields).

(** The loop adding a probe for each search field. *)
Fixpoint add_probes (return_fields : dict) (search_fields : list string)
    (q_select : dict) : dict :=
  match search_fields with
  | [] => q_select
  | search_field :: rest =>
      let field_alias := probe_alias search_field in
      if negb (in_values search_field return_fields)
      then add_probes return_fields rest
             (dict_set q_select field_alias (PStr search_field))
      else add_probes return_fields rest q_select
  end.

Definition build_q_select (return_fields : dict) (search_fields : list string) : dict :=
  let q_select :=
    fold_left (fun acc kv => dict_set acc (fst kv) (snd kv)) return_fields [] in
  add_probes return_fields search_fields q_select.

(** [q_select] as built from the arguments. *)
Definition q_select_of (arguments : SearchArguments) : dict :=
  build_q_select (return_fields_of arguments) (search_fields_of arguments).

(** The document given to [fibery_client.query]. *)
Definition search_document (arguments : SearchArguments) : dict :=
  [("q/from", PStr (arg_database arguments));
   ("q/select", PDict (q_select_of arguments));
   ("q/limit", PInt (limit_of arguments));
   ("q/offset", PInt (offset_of arguments));
   ("q/order", PList [PStr "fibery/creation-date"; PStr "desc"])].

(** The loop looking for [found_alias]: the first alias of [q_select]
    whose field equals [search_field]. *)
Fixpoint find_alias (q_select : dict) (search_field : string) : option string :=
  match q_select with
  | [] => None
  | (q_alias, q_field) :: rest =>
      if eq_str q_field search_field then Some q_alias
      else find_alias rest search_field
  end.

(** The fallback loop over [entity.items()]. *)
Fixpoint direct_value (entity : dict) (search_field : string) : pyval :=
  match entity with
  | [] => PNone
  | (key, value) :: rest =>
      if key =? search_field then value else direct_value rest search_field
  end.

(** [field_value] at the end of the lookup in the loop body. *)
Definition field_value_of (q_select entity : dict) (search_field : string) : pyval :=
  let field_alias := probe_alias search_field in
  match dict_get entity field_alias with
  | Some value => value
  | None =>
      let found_alias := find_alias q_select search_field in
      match found_alias with
      | Some a =>
          if negb (a =? "") then
            match dict_get entity a with
            | Some value => value
            | None => direct_value entity search_field
            end
          else direct_value entity search_field
      | None => direct_value entity search_field
      end
  end.

Section Scanner.

(** Python's built-in [str.lower()], on the encoding of a string. *)
Variable lower : string -> string.

(** The test [field_value and isinstance(field_value, str) and query in
    field_value.lower()]. *)
Definition value_matches (query : string) (field_value : pyval) : bool :=
  truthy field_value
  && match field_value with
     | PStr s => contains query (lower s)
     | _ => false
     end.

(** The loop over [search_fields] for one entity, which stops at the first
    match. *)
Fixpoint match_found (q_select : dict) (query : string) (entity : dict)
    (search_fields : list string) : bool :=
  match search_fields with
  | [] => false
  | search_field :: rest =>
      if value_matches query (field_value_of q_select entity search_field)
      then true
      else match_found q_select query entity rest
  end.

Definition filtered_entity (entity : dict) : dict :=
  List.filter (fun kv => negb (is_probe (fst kv))) entity.

(** The loop over [entities], appending to [matching_entities]. *)
Fixpoint filter_entities (q_select : dict) (query : string)
    (search_fields : list string) (entities : list dict)
    (matching_entities : list dict) : list dict :=
  match entities with
  | [] => matching_entities
  | entity :: rest =>
      if match_found q_select query entity search_fields
      then filter_entities q_select query search_fields rest
             (matching_entities ++ [filtered_entity entity])
      else filter_entities q_select query search_fields rest matching_entities
  end.

(** [matching_entities] after the loop. *)
Definition matching_entities_of (arguments : SearchArguments) (entities : list dict)
    : list dict :=
  filter_entities (q_select_of arguments) (lower (arg_query arguments))
    (search_fields_of arguments) entities [].

(** [result_text] before the continuation is considered: the scan summary
    and the rendered result. *)
Definition result_text (arguments : SearchArguments)
    (entities matching_entities : list dict) : string :=
  "Scanned " +:+ str_of_int (Z.of_nat (length entities))
    +:+ " entities (offset " +:+ str_of_int (offset_of arguments)
    +:+ ", limit " +:+ str_of_int (limit_of arguments)
    +:+ "). Found " +:+ str_of_int (Z.of_nat (length matching_entities))
    +:+ " matches:" +:+ String newline (String newline EmptyString)
    +:+ py_str (PDict [("success", PBool true);
                       ("result", PList (map PDict matching_entities))]).

(** The continuation instruction. *)
Definition continue_text (arguments : SearchArguments) : string :=
  String newline (String newline EmptyString)
    +:+ "To continue searching, call this tool again with offset="
    +:+ str_of_int (offset_of arguments + limit_of arguments) +:+ ".".

Definition handle_search (fibery_client : FiberyClient) (arguments : SearchArguments)
    : list TextContent :=
  let query_result := query fibery_client (PDict (search_document arguments)) PNone in
  match query_result with
  | Failed detail =>
      [Query.text_content ("Error querying database: " +:+ py_str detail)]
  | Succeeded entities =>
      let matching_entities := matching_entities_of arguments entities in
      let result_text := result_text arguments entities matching_entities in
      let result_text :=
        if (Z.of_nat (length entities) =? limit_of arguments)%Z
        then result_text +:+ continue_text arguments
        else result_text in
      [Query.text_content result_text]
  end.

End Scanner.

End Search.

(** ** The scenarios of the specification *)

Module Scenario.

Definition sales_database : Database :=
  {| database_name := "Sales/Deal";
     fields_by_name :=
       {[ "Sales/name" := {| field_name := "Sales/name"; is_rich_text := true |};
          "Sales/amount" := {| field_name := "Sales/amount"; is_rich_text := false |} ]} |}.

Definition sales_schema : Schema :=
  {| databases_by_name := {[ "Sales/Deal" := sales_database ]} |}.

(** A client whose executor answers [r] and whose documents all read
    ["Hello"]. *)
Definition client (r : CommandResult) : FiberyClient :=
  {| get_schema := sales_schema;
     query := fun _ _ => r;
     get_document_content := fun _ => "Hello" |}.

(** A rendering of a [CommandResult] in the shape [search.py] prints. *)
Definition str_result (r : CommandResult) : string :=
  py_str (PDict [("success", PBool (success r));
                 ("result",
                   match r with
                   | Succeeded entities => PList (map PDict entities)
                   | Failed detail => detail
                   end)]).

Definition name_select : dict := [("Name", PStr "Sales/name")].

Definition name_arguments : dict :=
  [("q_from", PStr "Sales/Deal"); ("q_select", PDict name_select)].

Definition name_worklist : list Query.RichTextFieldRef :=
  [{| Query.rt_alias := "Name"; Query.rt_name := PStr "Sales/name" |}].

(** A result whose second entity has no handle at ["Name"]. *)
Definition two_entities : list dict :=
  [[("Name", PStr "H1")]; [("Id", PStr "7")]].

Definition two_client : FiberyClient := client (Succeeded two_entities).

Definition name_document : dict :=
  [("q/from", PStr "Sales/Deal");
   ("q/select",
     PDict [("Name", PList [PStr "Sales/name"; PStr "Collaboration~Documents/secret"])]);
   ("q/limit", PInt 50)].

(** A search for the empty text over the default fields. *)
Definition empty_query_arguments : Search.SearchArguments :=
  {| Search.arg_database := "Sales/Deal";
     Search.arg_query := "";
     Search.arg_search_fields := None;
     Search.arg_return_fields := None;
     Search.arg_limit := None;
     Search.arg_offset := None |}.

(** An entity whose name is the empty string. *)
Definition unnamed_entity : dict := [("Name", PStr ""); ("Id", PStr "1")].

(** The third scenario: a page of two, both matching. *)
Definition acme_arguments : Search.SearchArguments :=
  {| Search.arg_database := "Sales/Deal";
     Search.arg_query := "acme";
     Search.arg_search_fields := Some ["Sales/name"];
     Search.arg_return_fields := Some [("Id", PStr "fibery/id")];
     Search.arg_limit := Some 2;
     Search.arg_offset := Some 4 |}.

Definition acme_entities : list dict :=
  [[("Id", PStr "1"); ("_search_Sales_name", PStr "ACME Corp")];
   [("Id", PStr "2"); ("_search_Sales_name", PStr "Acme Ltd")]].

Definition acme_client : FiberyClient := client (Succeeded acme_entities).

Definition acme_select : dict :=
  [("Id", PStr "fibery/id"); ("_search_Sales_name", PStr "Sales/name")].

Definition acme_document : dict :=
  [("q/from", PStr "Sales/Deal");
   ("q/select", PDict acme_select);
   ("q/limit", PInt 2);
   ("q/offset", PInt 4);
   ("q/order", PList [PStr "fibery/creation-date"; PStr "desc"])].

(** The summary and the rendered result of the third scenario. *)
Definition acme_body : string :=
  "Scanned 2 entities (offset 4, limit 2). Found 2 matches:"
    +:+ String newline (String newline EmptyString)
    +:+ "{'success': True, 'result': [{'Id': '1'}, {'Id': '2'}]}".

(** The fourth scenario: a limit of 50, three entities, one matching. *)
Definition page_arguments : Search.SearchArguments :=
  {| Search.arg_database := "Sales/Deal";
     Search.arg_query := "acme";
     Search.arg_search_fields := Some ["Sales/name"];
     Search.arg_return_fields := Some [("Id", PStr "fibery/id")];
     Search.arg_limit := Some 50;
     Search.arg_offset := None |}.

Definition page_entities : list dict :=
  [[("Id", PStr "1"); ("_search_Sales_name", PStr "Globex")];
   [("Id", PStr "2"); ("_search_Sales_name", PStr "Acme Ltd")];
   [("Id", PStr "3"); ("_search_Sales_name", PStr "Initech")]].

Definition page_client : FiberyClient := client (Succeeded page_entities).

Definition page_document : dict :=
  [("q/from", PStr "Sales/Deal");
   ("q/select", PDict acme_select);
   ("q/limit", PInt 50);
   ("q/offset", PInt 0);
   ("q/order", PList [PStr "fibery/creation-date"; PStr "desc"])].

Definition page_body : string :=
  "Scanned 3 entities (offset 0, limit 50). Found 1 matches:"
    +:+ String newline (String newline EmptyString)
    +:+ "{'success': True, 'result': [{'Id': '2'}]}".

(** A search whose return field for the name has the empty alias, and an
    entity holding the name under that alias. *)
Definition blank_alias_arguments : Search.SearchArguments :=
  {| Search.arg_database := "Sales/Deal";
     Search.arg_query := "acme";
     Search.arg_search_fields := Some ["Sales/name"];
     Search.arg_return_fields := Some [("", PStr "Sales/name")];
     Search.arg_limit := None;
     Search.arg_offset := None |}.

Definition blank_alias_entity : dict := [("", PStr "acme")].

(** A search with two aliases for the name, and an entity holding the name
    under the second one only. *)
Definition two_alias_arguments : Search.SearchArguments :=
  {| Search.arg_database := "Sales/Deal";
     Search.arg_query := "acme";
     Search.arg_search_fields := Some ["Sales/name"];
     Search.arg_return_fields :=
       Some [("First", PStr "Sales/name"); ("Second", PStr "Sales/name")];
     Search.arg_limit := None;
     Search.arg_offset := None |}.

Definition second_alias_entity : dict := [("Second", PStr "acme")].

(** The summary and the rendered result of a scan of one entity, with the
    default limit and offset, that keeps nothing. *)
Definition nothing_found : string :=
  "Scanned 1 entities (offset 0, limit 500). Found 0 matches:"
    +:+ String newline (String newline EmptyString)
    +:+ "{'success': True, 'result': []}".

End Scenario.

(** ** The store: [deepcopy] and assignment in place

    [get_rich_text_fields] copies its argument and assigns into the copy.
    Here lists and dicts are objects in a store, named by their location,
    and a value is an immediate or a reference; two references to one
    location are aliases, and an assignment through one is seen through the
    other.  The arguments are decoded from JSON, so the objects are lists
    and dicts. *)

Module Store.

Definition loc := nat.

Inductive val : Type :=
  | VNone
  | VBool (b : bool)
  | VInt (n : Z)
  | VStr (s : string)
  | VRef (l : loc).

Inductive obj : Type :=
  | OList (items : list val)
  | ODict (entries : list (string * val)).

Abbreviation store := (gmap loc obj).

(** A new object, at a location the store does not use. *)
Definition alloc (σ : store) (o : obj) : store * loc :=
  let l := fresh (dom σ) in (<[l := o]> σ, l).

Arguments alloc : simpl never.

(** The copies of the members [xs] of a list or a dict, made one after the
    other by [copy], each in the store the one before it left. *)
Definition copy_items (copy : store -> val -> option (store * val))
    : store -> list val -> option (store * list val) :=
  fix copy_items (σ : store) (xs : list val) : option (store * list val) :=
    match xs with
    | [] => Some (σ, [])
    | x :: xs' =>
        match copy σ x with
        | None => None
        | Some (σ1, y) =>
            match copy_items σ1 xs' with
            | None => None
            | Some (σ2, ys) => Some (σ2, y :: ys)
            end
        end
    end.

(** [copy.deepcopy(x)]: immediates are returned as they are, a list or a
    dict is rebuilt from the copies of its members.  [fuel] bounds the
    depth of the recursion; [None] is fuel exhausted, or a reference to no
    object.  The memo of [deepcopy] is left out: it only matters for an
    object reached twice, which JSON decoding does not produce. *)
Fixpoint deepcopy (fuel : nat) (σ : store) (x : val) : option (store * val) :=
  match x with
  | VRef l =>
      match fuel with
      | O => None
      | S fuel' =>
          match σ !! l with
          | None => None
          | Some (OList items) =>
              match copy_items (deepcopy fuel') σ items with
              | None => None
              | Some (σ1, items') =>
                  let '(σ2, l') := alloc σ1 (OList items') in
                  Some (σ2, VRef l')
              end
          | Some (ODict entries) =>
              match copy_items (deepcopy fuel') σ (map snd entries) with
              | None => None
              | Some (σ1, values') =>
                  let '(σ2, l') :=
                    alloc σ1 (ODict (zip (map fst entries) values')) in
                  Some (σ2, VRef l')
              end
          end
      end
  | _ => Some (σ, x)
  end.

(** [m.get(key)] on a map keyed by strings: a list or a dict is
    unhashable. *)
Definition get_field {A : Type} (m : gmap string A) (key : val) : outcome (option A) :=
  match key with
  | VRef _ => Raise TypeError
  | VStr s => Return (m !! s)
  | _ => Return None
  end.

Definition leaf_field_name (σ : store) (field_name : val) : outcome (option val) :=
  match field_name with
  | VStr _ => Return (Some field_name)
  | VRef l =>
      match σ !! l with
      | Some (ODict _) => Return None
      | Some (OList []) => Raise IndexError
      | Some (OList (first :: _)) => Return (Some first)
      | None => Return None
      end
  | _ => Return None
  end.

(** The loop over [safe_q_select.items()], on the dict at [safe] as the
    store has it when the entry is reached: [i] is the position of the
    iterator and [n] the number of entries it has still to visit. *)
Fixpoint rich_text_loop (database : Database) (n i : nat) (σ : store) (safe : loc)
    (rich_text_fields : list (string * val))
    : store * outcome (list (string * val)) :=
  match n with
  | O => (σ, Return rich_text_fields)
  | S n' =>
      match σ !! safe with
      | Some (ODict entries) =>
          match entries !! i with
          | None => (σ, Return rich_text_fields)
          | Some (field_alias, field_name) =>
              match leaf_field_name σ field_name with
              | Raise e => (σ, Raise e)
              | Return None =>
                  rich_text_loop database n' (S i) σ safe rich_text_fields
              | Return (Some field_name) =>
                  match get_field (fields_by_name database) field_name with
                  | Raise e => (σ, Raise e)
                  | Return None =>
                      rich_text_loop database n' (S i) σ safe rich_text_fields
                  | Return (Some field) =>
                      if is_rich_text field then
                        let '(σ1, l) :=
                          alloc σ (OList [field_name; VStr Query.document_secret]) in
                        let σ2 :=
                          <[safe := ODict (dict_set entries field_alias (VRef l))]> σ1 in
                        rich_text_loop database n' (S i) σ2 safe
                          (rich_text_fields ++ [(field_alias, field_name)])
                      else
                        rich_text_loop database n' (S i) σ safe rich_text_fields
                  end
              end
          end
      | _ => (σ, Raise AttributeError)
      end
  end.

(** [get_rich_text_fields(q_select, database)] on the store: the store
    after the call, and the worklist with a reference to the new select
    clause, or the exception.  [None] is [deepcopy] out of fuel. *)
Definition get_rich_text_fields (fuel : nat) (σ : store) (q_select : val)
    (database : Database)
    : option (store * outcome (list (string * val) * val)) :=
  match deepcopy fuel σ q_select with
  | None => None
  | Some (σ1, safe_q_select) =>
      match safe_q_select with
      | VRef safe =>
          match σ1 !! safe with
          | Some (ODict entries) =>
              let '(σ2, r) :=
                rich_text_loop database (length entries) 0 σ1 safe [] in
              Some (σ2,
                    match r with
                    | Return rich_text_fields =>
                        Return (rich_text_fields, safe_q_select)
                    | Raise e => Raise e
                    end)
          | _ => Some (σ1, Raise AttributeError)
          end
      | _ => Some (σ1, Raise AttributeError)
      end
  end.

(** [x] in the store [σ] is the value [t]: the reading of a store value as
    a tree. *)
Fixpoint repr (σ : store) (t : pyval) (x : val) : Prop :=
  match t with
  | PNone => x = VNone
  | PBool b => x = VBool b
  | PInt n => x = VInt n
  | PStr s => x = VStr s
  | PList ts =>
      exists l items,
        x = VRef l /\ σ !! l = Some (OList items)
        /\ (fix all2 (ts : list pyval) (xs : list val) : Prop :=
              match ts, xs with
              | [], [] => True
              | t :: ts', x :: xs' => repr σ t x /\ all2 ts' xs'
              | _, _ => False
              end) ts items
  | PTuple _ => False
  | PDict ts =>
      exists l entries,
        x = VRef l /\ σ !! l = Some (ODict entries)
        /\ (fix all2 (ts : list (string * pyval)) (xs : list (string * val)) : Prop :=
              match ts, xs with
              | [], [] => True
              | (k, t) :: ts', (k', x) :: xs' => k = k' /\ repr σ t x /\ all2 ts' xs'
              | _, _ => False
              end) ts entries
  end.

(** The depth of a tree, which bounds the fuel [deepcopy] needs. *)
Fixpoint depth (t : pyval) : nat :=
  match t with
  | PList ts | PTuple ts => S (fold_right (fun t d => Nat.max (depth t) d) O ts)
  | PDict ts => S (fold_right (fun kt d => Nat.max (depth (snd kt)) d) O ts)
  | _ => O
  end.

(** The members of a list, the entries of a dict and the worklist, read
    in the store. *)
Definition items_repr (σ : store) (ts : list pyval) (xs : list val) : Prop :=
  Forall2 (repr σ) ts xs.

Definition entries_repr (σ : store) (ts : dict) (entries : list (string * val))
    : Prop :=
  Forall2 (fun t e => fst t = fst e /\ repr σ (snd t) (snd e)) ts entries.

Definition worklist_repr (σ : store) (wl : list Query.RichTextFieldRef)
    (rich_text_fields : list (string * val)) : Prop :=
  Forall2 (fun r e => Query.rt_alias r = fst e /\ repr σ (Query.rt_name r) (snd e))
    wl rich_text_fields.

(** What [deepcopy] with [fuel] does on a value that reads as [t]: it
    returns, the store it leaves extends the one it was given, and the
    copy reads as [t] too. *)
Definition copies (fuel : nat) (t : pyval) : Prop :=
  forall (σ : store) x,
    repr σ t x ->
    exists σ' y, deepcopy fuel σ x = Some (σ', y) /\ σ ⊆ σ' /\ repr σ' t y.

(** The store of the first scenario: the caller's select clause is the
    dict at location 0. *)
Definition name_store : store :=
  {[ 0%nat := ODict [("Name", VStr "Sales/name")] ]}.

End Store.

(** ** The detection step, entry by entry

    What [get_rich_text_fields] makes of one entry of the select clause,
    written without the loop and its assignments, to compare the loop
    with. *)

Module Detection.

(** The field name the loop body finds rich-text for a field spec, if it
    finds one. *)
Definition substitution (database : Database) (spec : pyval) : option pyval :=
  match Query.leaf_field_name spec with
  | Return (Some field_name) =>
      match map_get (fields_by_name database) field_name with
      | Return (Some field) =>
          if is_rich_text field then Some field_name else None
      | _ => None
      end
  | _ => None
  end.

(** The entry as the returned select clause has it. *)
Definition rewritten (database : Database) (entry : string * pyval)
    : string * pyval :=
  match substitution database (snd entry) with
  | Some field_name =>
      (fst entry, PList [field_name; PStr Query.document_secret])
  | None => entry
  end.

(** The element of the worklist the entry gives, if it gives one. *)
Definition recorded (database : Database) (entry : string * pyval)
    : option Query.RichTextFieldRef :=
  match substitution database (snd entry) with
  | Some field_name =>
      Some {| Query.rt_alias := fst entry; Query.rt_name := field_name |}
  | None => None
  end.

End Detection.

(** ** More scenarios *)

Module Scenario2.

(** A select clause with a rich-text field, a plain field, a related
    field, a sub-query and a name the database does not have. *)
Definition mixed_select : dict :=
  [("Name", PStr "Sales/name");
   ("Amount", PStr "Sales/amount");
   ("State", PList [PStr "workflow/state"; PStr "enum/name"]);
   ("Tasks", PDict [("q/from", PStr "Sales/Task")]);
   ("Other", PStr "Sales/other")].

Definition mixed_safe_select : dict :=
  [("Name", PList [PStr "Sales/name"; PStr "Collaboration~Documents/secret"]);
   ("Amount", PStr "Sales/amount");
   ("State", PList [PStr "workflow/state"; PStr "enum/name"]);
   ("Tasks", PDict [("q/from", PStr "Sales/Task")]);
   ("Other", PStr "Sales/other")].

Definition mixed_arguments : dict :=
  [("q_from", PStr "Sales/Deal"); ("q_select", PDict mixed_select);
   ("q_limit", PInt 10)].

Definition mixed_document : dict :=
  [("q/from", PStr "Sales/Deal"); ("q/select", PDict mixed_safe_select);
   ("q/limit", PInt 10)].

(** A select clause with no rich-text field. *)
Definition plain_select : dict :=
  [("Amount", PStr "Sales/amount"); ("Id", PStr "fibery/id")].

Definition plain_arguments : dict :=
  [("q_from", PStr "Sales/Deal"); ("q_select", PDict plain_select)].

(** A result whose entities all have their handle at ["Name"]. *)
Definition handle_entities : list dict :=
  [[("Name", PStr "H1"); ("Amount", PInt 3)];
   [("Id", PStr "7"); ("Name", PStr "H2")]].

Definition handle_client : FiberyClient :=
  Scenario.client (Succeeded handle_entities).

Definition plain_document : dict :=
  [("q/from", PStr "Sales/Deal"); ("q/select", PDict plain_select);
   ("q/limit", PInt 50)].

(** A search in a database named without a space. *)
Definition task_arguments : Search.SearchArguments :=
  {| Search.arg_database := "Task";
     Search.arg_query := "fix";
     Search.arg_search_fields := None;
     Search.arg_return_fields := None;
     Search.arg_limit := None;
     Search.arg_offset := None |}.

Definition id_fields : dict := [("Id", PStr "fibery/id")].

End Scenario2.

(** * Properties *)

(** ** Dicts *)

Section DictFacts.

Context {V : Type}.
Implicit Types (d : list (string * V)) (k : string) (v : V).

Lemma dict_get_set_eq d k v : dict_get (dict_set d k v) k = Some v.
Proof.
  induction d as [|[k' v'] d IH]; simpl.
  - now rewrite String.eqb_refl.
  - destruct (k' =? k) eqn:E; simpl; rewrite E; auto.
Qed.

Lemma dict_get_set_ne d k k' v :
  k <> k' -> dict_get (dict_set d k v) k' = dict_get d k'.
Proof.
  intros Hne. induction d as [|[k0 v0] d IH]; simpl.
  - destruct (String.eqb_spec k k'); congruence.
  - destruct (String.eqb_spec k0 k) as [->|]; simpl.
    + destruct (String.eqb_spec k k'); congruence.
    + now rewrite IH.
Qed.

Lemma dict_get_None d k : dict_get d k = None <-> ~ In k (dict_keys d).
Proof.
  induction d as [|[k' v'] d IH]; simpl.
  - tauto.
  - destruct (String.eqb_spec k' k) as [->|Hne].
    + split; [discriminate | tauto].
    + rewrite IH. tauto.
Qed.

Lemma dict_get_In d k v : dict_get d k = Some v -> In (k, v) d.
Proof.
  induction d as [|[k' v'] d IH]; simpl; [discriminate|].
  destruct (String.eqb_spec k' k) as [->|Hne].
  - intros [= ->]. now left.
  - intros H. right. auto.
Qed.

Lemma dict_get_In_nodup d k v :
  NoDup (dict_keys d) -> In (k, v) d -> dict_get d k = Some v.
Proof.
  induction d as [|[k' v'] d IH]; simpl; [tauto|].
  intros Hnd [Heq|Hin]; apply NoDup_cons in Hnd as [Hnotin Hnd].
  - injection Heq as -> ->. now rewrite String.eqb_refl.
  - destruct (String.eqb_spec k' k) as [->|Hne]; [|auto].
    exfalso. apply Hnotin. apply list_elem_of_In.
    change k with (fst (k, v)). now apply in_map.
Qed.

Lemma dict_keys_set d k v :
  In k (dict_keys d) -> dict_keys (dict_set d k v) = dict_keys d.
Proof.
  induction d as [|[k' v'] d IH]; simpl; [tauto|].
  intros Hin. destruct (String.eqb_spec k' k) as [->|Hne]; simpl; [reflexivity|].
  f_equal. apply IH. destruct Hin; congruence.
Qed.

End DictFacts.

(** ** The order-by transform *)

Section OrderBy.

Import Query.

(** An empty mapping, like an omitted one, gives no clause at all. *)
Lemma parse_q_order_by_empty : parse_q_order_by (PDict []) = Return PNone.
Proof. reflexivity. Qed.

Lemma parse_q_order_by_none : parse_q_order_by PNone = Return PNone.
Proof. reflexivity. Qed.

(** The scenario of the specification. *)
Example parse_q_order_by_example :
  parse_q_order_by (PDict [("a", PStr "asc"); ("b", PStr "desc")])
  = Return (PList [PTuple [PList [PStr "a"]; PStr "asc"];
                   PTuple [PList [PStr "b"]; PStr "desc"]]).
Proof. reflexivity. Qed.

(** C4. For an order-by mapping with keys k1, k2, ... in insertion order,
    [parse_q_order_by] returns a list with one pair per entry, in the
    same order: the pair at position [i] is the singleton list holding
    the [i]-th field name, with the [i]-th direction token as it was
    given, whatever value that token is. *)
Theorem parse_q_order_by_pairs (q_order_by : dict) :
  q_order_by <> [] ->
  exists pairs,
    parse_q_order_by (PDict q_order_by) = Return (PList pairs)
    /\ length pairs = length q_order_by
    /\ forall (i : nat) field q_order,
         q_order_by !! i = Some (field, q_order) ->
         pairs !! i = Some (PTuple [PList [PStr field]; q_order]).
Proof.
  intros Hne. destruct q_order_by as [|entry rest]; [congruence|].
  eexists. split; [reflexivity|]. split.
  - now rewrite length_map.
  - intros i field q_order Hi.
    rewrite list_lookup_fmap, Hi. reflexivity.
Qed.

Lemma parse_q_order_by_pairs_witness :
  [("a", PStr "q/asc"); ("b", PInt 7)] <> []
  /\ exists pairs,
       parse_q_order_by (PDict [("a", PStr "q/asc"); ("b", PInt 7)])
       = Return (PList pairs)
       /\ length pairs = 2%nat
       /\ forall (i : nat) field q_order,
            [("a", PStr "q/asc"); ("b", PInt 7)] !! i = Some (field, q_order) ->
            pairs !! i = Some (PTuple [PList [PStr field]; q_order]).
Proof.
  split; [discriminate|].
  apply (parse_q_order_by_pairs [("a", PStr "q/asc"); ("b", PInt 7)]).
  discriminate.
Defined.

End OrderBy.

(** ** Rich-text detection *)

Section RichText.

Import Query.

Variable database : Database.

Lemma rich_text_loop_cons field_alias spec rest wl safe :
  rich_text_loop database ((field_alias, spec) :: rest) wl safe
  = (leaf <- leaf_field_name spec ;;
     match leaf with
     | None => rich_text_loop database rest wl safe
     | Some field_name =>
         field <- map_get (fields_by_name database) field_name ;;
         match field with
         | None => rich_text_loop database rest wl safe
         | Some field =>
             if is_rich_text field then
               rich_text_loop database rest
                 (wl ++ [{| rt_alias := field_alias; rt_name := field_name |}])
                 (dict_set safe field_alias
                    (PList [field_name; PStr document_secret]))
             else rich_text_loop database rest wl safe
         end
     end).
Proof. reflexivity. Qed.

Lemma leaf_resolves spec name :
  resolves_to spec name -> leaf_field_name spec = Return (Some (PStr name)).
Proof. intros [->|[rest ->]]; reflexivity. Qed.

Lemma leaf_field_name_inv spec key :
  leaf_field_name spec = Return (Some key) ->
  (exists name, key = PStr name /\ resolves_to spec name)
  \/ (forall name, key <> PStr name).
Proof.
  destruct spec as [| | |s|[|first items]| |]; simpl; try discriminate.
  - intros [= <-]. left. exists s. split; [reflexivity|now left].
  - intros [= <-]. destruct first; try (right; intros; discriminate).
    left. eexists. split; [reflexivity|]. right. now eexists.
Qed.

Lemma map_get_found {A : Type} (m : gmap string A) key a :
  map_get m key = Return (Some a) ->
  exists name, key = PStr name /\ m !! name = Some a.
Proof.
  unfold map_get. destruct (hashable key); [|discriminate].
  destruct key; try discriminate. intros [= H]. eauto.
Qed.

(** A turn of the loop that skips its entry keeps the postcondition of
    the turns after it. *)
Lemma loop_post_skip a spec rest wl safe wl' safe' :
  ~ In a (dict_keys rest) ->
  (forall name, resolves_to spec name -> ~ flagged_rich_text database name) ->
  loop_post database rest wl safe wl' safe' ->
  loop_post database ((a, spec) :: rest) wl safe wl' safe'.
Proof.
  intros Ha Hnot (H1 & H2 & H3). split; [exact H1|]. split.
  - intros k Hk. apply H2. simpl in Hk. tauto.
  - intros fa sp [[= <- <-]|Hin].
    + split.
      * intros name Hres Hrich. exfalso. eapply Hnot; eauto.
      * intros _. apply H2. exact Ha.
    + apply H3. exact Hin.
Qed.

(** The loop establishes its postcondition on a clause with distinct
    aliases. *)
Lemma rich_text_loop_spec items :
  forall wl safe wl' safe',
    NoDup (dict_keys items) ->
    rich_text_loop database items wl safe = Return (wl', safe') ->
    loop_post database items wl safe wl' safe'.
Proof.
  induction items as [|[a spec] rest IH]; intros wl safe wl' safe' Hnd Hrun.
  - simpl in Hrun. injection Hrun as <- <-.
    split; [auto|]. split; [auto|]. intros fa sp [].
  - apply NoDup_cons in Hnd as [Ha Hnd]. rewrite list_elem_of_In in Ha.
    rewrite rich_text_loop_cons in Hrun.
    destruct (leaf_field_name spec) as [[key|]|e] eqn:Hleaf; simpl in Hrun;
      [| apply loop_post_skip; auto | discriminate].
    2:{ intros name Hres. apply leaf_resolves in Hres. congruence. }
    destruct (map_get (fields_by_name database) key) as [[field|]|e] eqn:Hget;
      simpl in Hrun; [| apply loop_post_skip; auto | discriminate].
    2:{ intros name Hres [f [Hf _]]. apply leaf_resolves in Hres.
        rewrite Hleaf in Hres. injection Hres as ->.
        unfold map_get in Hget. simpl in Hget. congruence. }
    apply map_get_found in Hget as [name [-> Hfield]].
    destruct (is_rich_text field) eqn:Hrich.
    2:{ apply loop_post_skip; auto. intros name' Hres [f [Hf Hr]].
        apply leaf_resolves in Hres. rewrite Hleaf in Hres.
        injection Hres as ->. congruence. }
    destruct (IH _ _ _ _ Hnd Hrun) as (H1 & H2 & H3).
    split; [|split].
    + intros r Hr. apply H1. apply in_or_app. now left.
    + intros k Hk. simpl in Hk. rewrite H2 by tauto.
      apply dict_get_set_ne. tauto.
    + intros fa sp [[= <- <-]|Hin].
      * split.
        -- intros name' Hres _. apply leaf_resolves in Hres.
           rewrite Hleaf in Hres. injection Hres as <-.
           split.
           ++ rewrite H2 by exact Ha. apply dict_get_set_eq.
           ++ apply H1. apply in_or_app. right. now left.
        -- intros Hnot. exfalso.
           destruct (leaf_field_name_inv _ _ Hleaf) as [[n [[= <-] Hres]]|Hno].
           ++ eapply Hnot; [exact Hres|]. exists field. auto.
           ++ now apply (Hno name).
      * destruct (H3 _ _ Hin) as [H3a H3b]. split; [exact H3a|].
        intros Hnot. rewrite (H3b Hnot). apply dict_get_set_ne.
        intros <-. apply Ha. exact (in_map fst _ _ Hin).
Qed.

(** The loop raises only on an ill-shaped field spec. *)
Lemma rich_text_loop_returns items :
  forall wl safe,
    forallb well_shaped (dict_values items) = true ->
    exists r, rich_text_loop database items wl safe = Return r.
Proof.
  induction items as [|[a spec] rest IH]; intros wl safe Hshape.
  - eexists. reflexivity.
  - simpl in Hshape. apply andb_prop in Hshape as [Hspec Hrest].
    rewrite rich_text_loop_cons.
    assert (Hleaf : leaf_field_name spec = Return None
                    \/ exists key, leaf_field_name spec = Return (Some key)
                                   /\ hashable key = true).
    { destruct spec as [| | |s|[|first items]| |]; simpl in *;
        try discriminate; eauto. }
    destruct Hleaf as [->|[key [-> Hkey]]]; simpl; [now apply IH|].
    unfold map_get. rewrite Hkey. simpl.
    destruct (match key with PStr s => fields_by_name database !! s | _ => None end)
      as [field|]; [|now apply IH].
    destruct (is_rich_text field); now apply IH.
Qed.

Lemma get_rich_text_fields_returns q_select :
  forallb well_shaped (dict_values q_select) = true ->
  exists r, get_rich_text_fields q_select database = Return r.
Proof. apply rich_text_loop_returns. Qed.

(** C1. Whenever [get_rich_text_fields] builds a select clause, every
    alias of the given clause whose field spec resolves (a string as it
    is, a list by its first segment) to a field the database flags
    rich-text is mapped in the built clause to the two-segment path made
    of the field name and the document handle field, and the worklist
    returned with the clause holds that alias with the field name. *)
Theorem get_rich_text_fields_substitutes q_select rich_text_fields safe_q_select :
  dict_ok q_select ->
  get_rich_text_fields q_select database
  = Return (rich_text_fields, safe_q_select) ->
  forall field_alias spec name,
    dict_get q_select field_alias = Some spec ->
    resolves_to spec name ->
    flagged_rich_text database name ->
    dict_get safe_q_select field_alias
    = Some (PList [PStr name; PStr "Collaboration~Documents/secret"])
    /\ In {| rt_alias := field_alias; rt_name := PStr name |} rich_text_fields.
Proof.
  intros Hok Hrun field_alias spec name Hget Hres Hrich.
  destruct (rich_text_loop_spec _ _ _ _ _ Hok Hrun) as (_ & _ & H3).
  apply dict_get_In in Hget. destruct (H3 _ _ Hget) as [Hsub _].
  now apply Hsub.
Qed.

(** An entry that resolves to no rich-text field is left as it was. *)
Lemma get_rich_text_fields_keeps q_select rich_text_fields safe_q_select :
  dict_ok q_select ->
  get_rich_text_fields q_select database
  = Return (rich_text_fields, safe_q_select) ->
  forall field_alias spec,
    dict_get q_select field_alias = Some spec ->
    (forall name, resolves_to spec name -> ~ flagged_rich_text database name) ->
    dict_get safe_q_select field_alias = Some spec.
Proof.
  intros Hok Hrun field_alias spec Hget Hnot.
  destruct (rich_text_loop_spec _ _ _ _ _ Hok Hrun) as (_ & _ & H3).
  destruct (H3 _ _ (dict_get_In _ _ _ Hget)) as [_ Hkeep].
  now rewrite (Hkeep Hnot).
Qed.

(** C8, at the inputs where the code departs from it: a select clause
    with an empty list as a field spec makes [get_rich_text_fields] raise
    [IndexError], whatever the database, and one with a list whose first
    segment is itself a list makes it raise [TypeError]. *)
Theorem get_rich_text_fields_empty_list_raises field_alias :
  get_rich_text_fields [(field_alias, PList [])] database = Raise IndexError
  /\ get_rich_text_fields [(field_alias, PList [PList []])] database
     = Raise TypeError.
Proof. split; reflexivity. Qed.

(** The aliases added to the worklist are aliases of the visited entries,
    in their order. *)
Lemma rich_text_loop_aliases items :
  forall wl safe wl' safe',
    rich_text_loop database items wl safe = Return (wl', safe') ->
    exists added,
      wl' = (wl ++ added)%list /\ sublist (map rt_alias added) (dict_keys items).
Proof.
  induction items as [|[a spec] rest IH]; intros wl safe wl' safe' Hrun.
  - injection Hrun as <- <-. exists []. split; [now rewrite app_nil_r|constructor].
  - rewrite rich_text_loop_cons in Hrun.
    assert (Hskip : rich_text_loop database rest wl safe = Return (wl', safe') ->
                    exists added, wl' = (wl ++ added)%list
                      /\ sublist (map rt_alias added) (dict_keys ((a, spec) :: rest))).
    { intros H. destruct (IH _ _ _ _ H) as [added [-> Hsub]].
      exists added. split; [reflexivity|]. now apply sublist_cons. }
    destruct (leaf_field_name spec) as [[key|]|e]; simpl in Hrun;
      [| now apply Hskip | discriminate].
    destruct (map_get (fields_by_name database) key) as [[field|]|e];
      simpl in Hrun; [| now apply Hskip | discriminate].
    destruct (is_rich_text field); [|now apply Hskip].
    destruct (IH _ _ _ _ Hrun) as [added [-> Hsub]].
    exists ({| rt_alias := a; rt_name := key |} :: added).
    split; [now rewrite <- app_assoc|]. simpl. now apply sublist_skip.
Qed.

Lemma get_rich_text_fields_aliases q_select rich_text_fields safe_q_select :
  dict_ok q_select ->
  get_rich_text_fields q_select database
  = Return (rich_text_fields, safe_q_select) ->
  NoDup (map rt_alias rich_text_fields).
Proof.
  intros Hok Hrun.
  destruct (rich_text_loop_aliases _ _ _ _ _ Hrun) as [added [-> Hsub]].
  simpl. eapply sublist_NoDup; eauto.
Qed.

End RichText.

(** ** The query document *)

Section QueryDocument.

Import Query.

Lemma bind_Return {A B} (m : outcome A) (k : A -> outcome B) b :
  bind m k = Return b -> exists a, m = Return a /\ k a = Return b.
Proof. destruct m; simpl; [eauto|discriminate]. Qed.

Lemma build_query_inv fibery_client arguments rich_text_fields query :
  build_query fibery_client arguments = Return (rich_text_fields, query) ->
  exists q_from q_select database safe_q_select order_by,
    dict_get arguments "q_from" = Some q_from
    /\ dict_get arguments "q_select" = Some (PDict q_select)
    /\ map_subscript (databases_by_name (get_schema fibery_client)) q_from
       = Return database
    /\ get_rich_text_fields q_select database
       = Return (rich_text_fields, safe_q_select)
    /\ parse_q_order_by (dict_get_default arguments "q_order_by" PNone)
       = Return order_by
    /\ query
       = dict_merge
           [("q/from", q_from); ("q/select", PDict safe_q_select);
            ("q/limit", dict_get_default arguments "q_limit" (PInt 50))]
           (List.filter (fun kv => negb (is_none (snd kv)))
              [("q/where", dict_get_default arguments "q_where" PNone);
               ("q/order-by", order_by);
               ("q/offset", dict_get_default arguments "q_offset" PNone)]).
Proof.
  unfold build_query, dict_subscript. intros H.
  destruct (dict_get arguments "q_from") as [q_from|]; [|discriminate].
  destruct (dict_get arguments "q_select") as [q_select|]; [|discriminate].
  simpl in H.
  apply bind_Return in H as [database [Hdb H]].
  apply bind_Return in H as [sel [Hsel H]].
  destruct q_select; try discriminate. injection Hsel as <-.
  apply bind_Return in H as [[wl safe] [Hrtf H]].
  apply bind_Return in H as [order_by [Hob H]].
  injection H as <- <-.
  exists q_from, entries, database, safe, order_by. auto 10.
Qed.

Lemma dict_merge_lookups q_from q_select q_limit q_where order_by q_offset :
  let query :=
    dict_merge
      [("q/from", q_from); ("q/select", q_select); ("q/limit", q_limit)]
      (List.filter (fun kv => negb (is_none (snd kv)))
         [("q/where", q_where); ("q/order-by", order_by); ("q/offset", q_offset)]) in
  dict_get query "q/from" = Some q_from
  /\ dict_get query "q/select" = Some q_select
  /\ dict_get query "q/limit" = Some q_limit
  /\ dict_get query "q/where" = (if is_none q_where then None else Some q_where)
  /\ dict_get query "q/order-by" = (if is_none order_by then None else Some order_by)
  /\ dict_get query "q/offset" = (if is_none q_offset then None else Some q_offset)
  /\ incl (dict_keys query)
          ["q/from"; "q/select"; "q/limit"; "q/where"; "q/order-by"; "q/offset"].
Proof.
  destruct (is_none q_where) eqn:Ew, (is_none order_by) eqn:Eb,
    (is_none q_offset) eqn:Eo; simpl; rewrite ?Ew, ?Eb, ?Eo; simpl;
    repeat split; try reflexivity; intros k Hk; simpl in *; tauto.
Qed.

Lemma is_none_false (v : pyval) : is_none v = false <-> v <> PNone.
Proof. destruct v; simpl; split; congruence. Qed.

Lemma optional_key (given : option pyval) (v : pyval) :
  (if is_none (default PNone given) then None else Some (default PNone given)) = Some v
  <-> given = Some v /\ v <> PNone.
Proof.
  destruct given as [g|]; simpl.
  - destruct (is_none g) eqn:E.
    + split; [discriminate|]. intros [[= ->] Hv]. apply is_none_false in Hv. congruence.
    + apply is_none_false in E. split; [intros [= <-]; auto | intros [[= <-] _]; auto].
  - split; [discriminate | intros [? _]; discriminate].
Qed.

(** The document is built whenever the source names a database of the
    schema, the select clause is a dict of well-shaped field specs, and the
    ordering, when given, is a dict. *)
Lemma build_query_returns fibery_client arguments q_from database q_select :
  dict_get arguments "q_from" = Some (PStr q_from) ->
  databases_by_name (get_schema fibery_client) !! q_from = Some database ->
  dict_get arguments "q_select" = Some (PDict q_select) ->
  forallb well_shaped (dict_values q_select) = true ->
  (dict_get arguments "q_order_by" = None
   \/ exists q_order_by, dict_get arguments "q_order_by" = Some (PDict q_order_by)) ->
  exists r, build_query fibery_client arguments = Return r.
Proof.
  intros Hfrom Hdb Hsel Hshape Hob.
  unfold build_query, dict_subscript, map_subscript, map_get, dict_get_default.
  rewrite Hfrom, Hsel. cbn [bind hashable items]. rewrite Hdb. cbn [bind].
  destruct (get_rich_text_fields_returns database q_select Hshape) as [[wl safe] ->].
  cbn [bind].
  destruct Hob as [-> | [q_order_by ->]].
  - eexists. reflexivity.
  - destruct q_order_by; eexists; reflexivity.
Qed.

(** C5. The wire document [handle_query] builds always has the source,
    the select and the limit keys, the limit being 50 when the caller
    gives none; and it has the where, the order-by and the offset key
    exactly when the argument is given with a value that is not null (for
    order-by: a value [parse_q_order_by] turns into a clause), with that
    value.  So an omitted argument leaves its key absent, and no such key
    is ever present with a null value.  The document has no other key. *)
Theorem build_query_keys fibery_client arguments rich_text_fields query :
  build_query fibery_client arguments = Return (rich_text_fields, query) ->
  dict_get query "q/from" = dict_get arguments "q_from"
  /\ (exists q_select database safe_q_select,
        dict_get arguments "q_select" = Some (PDict q_select)
        /\ get_rich_text_fields q_select database
           = Return (rich_text_fields, safe_q_select)
        /\ dict_get query "q/select" = Some (PDict safe_q_select))
  /\ (dict_get arguments "q_limit" = None ->
      dict_get query "q/limit" = Some (PInt 50))
  /\ (forall v, dict_get arguments "q_limit" = Some v ->
                dict_get query "q/limit" = Some v)
  /\ (forall v, dict_get query "q/where" = Some v <->
                dict_get arguments "q_where" = Some v /\ v <> PNone)
  /\ (forall v, dict_get query "q/order-by" = Some v <->
                exists q_order_by,
                  dict_get arguments "q_order_by" = Some q_order_by
                  /\ parse_q_order_by q_order_by = Return v /\ v <> PNone)
  /\ (forall v, dict_get query "q/offset" = Some v <->
                dict_get arguments "q_offset" = Some v /\ v <> PNone)
  /\ incl (dict_keys query)
          ["q/from"; "q/select"; "q/limit"; "q/where"; "q/order-by"; "q/offset"].
Proof.
  intros H.
  apply build_query_inv in H
    as (q_from & q_select & database & safe & order_by
        & Hfrom & Hsel & Hdb & Hrtf & Hob & ->).
  destruct (dict_merge_lookups q_from (PDict safe)
              (dict_get_default arguments "q_limit" (PInt 50))
              (dict_get_default arguments "q_where" PNone) order_by
              (dict_get_default arguments "q_offset" PNone))
    as (Lfrom & Lsel & Llim & Lwhere & Lob & Loff & Lkeys).
  split; [now rewrite Lfrom, Hfrom|].
  split; [exists q_select, database, safe; auto|].
  unfold dict_get_default in *.
  split; [intros Hl; rewrite Llim, Hl; reflexivity|].
  split; [intros v Hl; rewrite Llim, Hl; reflexivity|].
  split; [intros v; rewrite Lwhere; apply (optional_key (dict_get arguments "q_where"))|].
  split; [|split; [|exact Lkeys];
           intros v; rewrite Loff; apply (optional_key (dict_get arguments "q_offset"))].
  intros v. rewrite Lob. split.
  - destruct (is_none order_by) eqn:E; [discriminate|]. intros [= <-].
    destruct (dict_get arguments "q_order_by") as [given|].
    + exists given. split; [reflexivity|]. split; [exact Hob|]. now apply is_none_false.
    + simpl in Hob. injection Hob as <-. discriminate.
  - intros (given & Hg & Hp & Hv). rewrite Hg in Hob. rewrite Hp in Hob.
    injection Hob as <-. apply is_none_false in Hv. now rewrite Hv.
Qed.

Lemma build_query_keys_witness :
  build_query (Scenario.client (Succeeded [])) Scenario.name_arguments
  = Return (Scenario.name_worklist, Scenario.name_document)
  /\ dict_get Scenario.name_document "q/from"
     = dict_get Scenario.name_arguments "q_from"
  /\ (exists q_select database safe_q_select,
        dict_get Scenario.name_arguments "q_select" = Some (PDict q_select)
        /\ get_rich_text_fields q_select database
           = Return (Scenario.name_worklist, safe_q_select)
        /\ dict_get Scenario.name_document "q/select" = Some (PDict safe_q_select))
  /\ (dict_get Scenario.name_arguments "q_limit" = None ->
      dict_get Scenario.name_document "q/limit" = Some (PInt 50))
  /\ (forall v, dict_get Scenario.name_arguments "q_limit" = Some v ->
                dict_get Scenario.name_document "q/limit" = Some v)
  /\ (forall v, dict_get Scenario.name_document "q/where" = Some v <->
                dict_get Scenario.name_arguments "q_where" = Some v /\ v <> PNone)
  /\ (forall v, dict_get Scenario.name_document "q/order-by" = Some v <->
                exists q_order_by,
                  dict_get Scenario.name_arguments "q_order_by" = Some q_order_by
                  /\ parse_q_order_by q_order_by = Return v /\ v <> PNone)
  /\ (forall v, dict_get Scenario.name_document "q/offset" = Some v <->
                dict_get Scenario.name_arguments "q_offset" = Some v /\ v <> PNone)
  /\ incl (dict_keys Scenario.name_document)
          ["q/from"; "q/select"; "q/limit"; "q/where"; "q/order-by"; "q/offset"].
Proof.
  assert (H : build_query (Scenario.client (Succeeded [])) Scenario.name_arguments
              = Return (Scenario.name_worklist, Scenario.name_document))
    by (vm_compute; reflexivity).
  split; [exact H|].
  exact (build_query_keys _ _ _ _ H).
Defined.

End QueryDocument.

(** ** Resolution of the handles *)

Section Resolver.

Import Query.

Variable fibery_client : FiberyClient.

(** Resolving an entity changes only the aliases of the worklist. *)
Lemma resolve_entity_frame rich_text_fields :
  forall entity resolved k,
    resolve_entity fibery_client entity rich_text_fields = inr resolved ->
    ~ In k (map rt_alias rich_text_fields) ->
    dict_get resolved k = dict_get entity k.
Proof.
  induction rich_text_fields as [|field rest IH]; intros entity resolved k Hrun Hk.
  - now injection Hrun as <-.
  - simpl in Hrun, Hk. destruct (truthy _); simpl in Hrun; [|discriminate].
    rewrite (IH _ _ _ Hrun) by tauto. apply dict_get_set_ne. tauto.
Qed.

(** The inner loop: either every field of the worklist has its handle in
    the entity, or the loop stops at the first field that has none, with
    the diagnostic for the entity as resolved so far. *)
Lemma resolve_entity_spec rich_text_fields :
  forall entity,
    NoDup (map rt_alias rich_text_fields) ->
    match resolve_entity fibery_client entity rich_text_fields with
    | inr _ => forall field, In field rich_text_fields -> has_handle entity field = true
    | inl diagnostic =>
        exists before field after resolved,
          rich_text_fields = (before ++ field :: after)%list
          /\ (forall f, In f before -> has_handle entity f = true)
          /\ has_handle entity field = false
          /\ resolve_entity fibery_client entity before = inr resolved
          /\ diagnostic = unable_text resolved field
    end.
Proof.
  induction rich_text_fields as [|field rest IH]; intros entity Hnd.
  - intros f [].
  - simpl in Hnd. apply NoDup_cons in Hnd as [Hfield Hnd].
    rewrite list_elem_of_In in Hfield. simpl.
    destruct (truthy (dict_get_default entity (rt_alias field) PNone)) eqn:Hsecret;
      simpl.
    2:{ exists [], field, rest, entity. repeat split; auto; intros f []. }
    set (entity' := dict_set entity (rt_alias field) _).
    assert (Hsame : forall f, In f rest -> has_handle entity' f = has_handle entity f).
    { intros f Hf. unfold has_handle, dict_get_default, entity'.
      rewrite dict_get_set_ne; [reflexivity|].
      intros Heq. apply Hfield. rewrite Heq. now apply in_map. }
    specialize (IH entity' Hnd).
    destruct (resolve_entity fibery_client entity' rest) as [diagnostic|resolved].
    + destruct IH as (before & f & after & resolved & -> & Hbefore & Hf & Hres & ->).
      exists (field :: before), f, after, resolved.
      split; [reflexivity|]. split.
      * intros f' [<-|Hin]; [exact Hsecret|].
        rewrite <- Hsame; [now apply Hbefore|]. apply in_or_app. now left.
      * split; [rewrite <- Hsame; [exact Hf|]; apply in_or_app; right; now left|].
        split; [|reflexivity]. simpl. fold (has_handle entity field).
        unfold has_handle. rewrite Hsecret. exact Hres.
    + intros f [<-|Hin]; [exact Hsecret|]. rewrite <- Hsame; auto.
Qed.

(** The outer loop stops at the first entity that misses a handle. *)
Lemma resolve_entities_spec rich_text_fields entities :
  NoDup (map rt_alias rich_text_fields) ->
  match resolve_entities fibery_client entities rich_text_fields with
  | inr _ =>
      forall entity field,
        In entity entities -> In field rich_text_fields ->
        has_handle entity field = true
  | inl diagnostic =>
      exists earlier entity later before field after resolved,
        entities = (earlier ++ entity :: later)%list
        /\ rich_text_fields = (before ++ field :: after)%list
        /\ (forall e f, In e earlier -> In f rich_text_fields -> has_handle e f = true)
        /\ (forall f, In f before -> has_handle entity f = true)
        /\ has_handle entity field = false
        /\ resolve_entity fibery_client entity before = inr resolved
        /\ diagnostic = unable_text resolved field
  end.
Proof.
  intros Hnd. induction entities as [|entity rest IH]; simpl.
  - intros e f [].
  - pose proof (resolve_entity_spec rich_text_fields entity Hnd) as Hone.
    destruct (resolve_entity fibery_client entity rich_text_fields)
      as [diagnostic|resolved].
    + destruct Hone as (before & field & after & resolved & Hwl & Hb & Hf & Hres & ->).
      exists [], entity, rest, before, field, after, resolved.
      repeat split; auto; intros e f [].
    + destruct (resolve_entities fibery_client rest rich_text_fields)
        as [diagnostic|rest'].
      * destruct IH as (earlier & e & later & before & field & after & res
                        & -> & Hwl & He & Hb & Hf & Hres & ->).
        exists (entity :: earlier), e, later, before, field, after, res.
        repeat split; auto. intros e' f [<-|Hin] Hfin; auto.
      * intros e f [<-|Hin] Hf; auto.
Qed.

End Resolver.

Section MissingHandle.

Import Query.

(** C2. When the executor succeeds and some returned entity has no
    non-empty handle at the alias of some field of the worklist, the
    output of [handle_query] is exactly one text payload, the diagnostic:
    it names the first such entity in the order of the result, as it
    stands when the handle is missed (with its handles before that field
    replaced by their content), and the first field of the worklist at
    which that entity has no handle.  No result is returned with it. *)
Theorem handle_query_missing_handle str_command_result fibery_client arguments
    rich_text_fields query_document entities :
  (forall q_select,
     dict_get arguments "q_select" = Some (PDict q_select) -> dict_ok q_select) ->
  build_query fibery_client arguments = Return (rich_text_fields, query_document) ->
  query fibery_client (PDict query_document)
    (dict_get_default arguments "q_params" PNone) = Succeeded entities ->
  (exists entity field,
     In entity entities /\ In field rich_text_fields
     /\ truthy (dict_get_default entity (rt_alias field) PNone) = false) ->
  exists earlier entity later before field after resolved,
    entities = (earlier ++ entity :: later)%list
    /\ rich_text_fields = (before ++ field :: after)%list
    /\ (forall e f, In e earlier -> In f rich_text_fields -> has_handle e f = true)
    /\ (forall f, In f before -> has_handle entity f = true)
    /\ has_handle entity field = false
    /\ resolve_entity fibery_client entity before = inr resolved
    /\ handle_query str_command_result fibery_client arguments
       = Return [text_content
                   ("Unable to get document content for entity "
                      +:+ py_str (PDict resolved) +:+ ". Field: "
                      +:+ py_str (ref_dict field))].
Proof.
  intros Hok Hbuild Hquery (entity & field & He & Hf & Hmissing).
  unfold handle_query. rewrite Hbuild. simpl. rewrite Hquery.
  apply build_query_inv in Hbuild
    as (q_from & q_select & database & safe & order_by
        & _ & Hsel & _ & Hrtf & _ & _).
  pose proof (get_rich_text_fields_aliases _ _ _ _ (Hok _ Hsel) Hrtf) as Hnd.
  pose proof (resolve_entities_spec fibery_client rich_text_fields entities Hnd) as Hspec.
  destruct (resolve_entities fibery_client entities rich_text_fields)
    as [diagnostic|entities'].
  - destruct Hspec as (earlier & e & later & before & f & after & resolved
                       & H1 & H2 & H3 & H4 & H5 & H6 & ->).
    exists earlier, e, later, before, f, after, resolved. auto 10.
  - specialize (Hspec entity field He Hf). unfold has_handle in Hspec. congruence.
Qed.

End MissingHandle.

Section QueryWitnesses.

Import Query.

Lemma name_select_ok : dict_ok Scenario.name_select.
Proof. apply NoDup_singleton. Qed.

Lemma get_rich_text_fields_substitutes_witness :
  dict_ok Scenario.name_select
  /\ get_rich_text_fields Scenario.name_select Scenario.sales_database
     = Return (Scenario.name_worklist,
               [("Name", PList [PStr "Sales/name";
                                PStr "Collaboration~Documents/secret"])])
  /\ dict_get Scenario.name_select "Name" = Some (PStr "Sales/name")
  /\ resolves_to (PStr "Sales/name") "Sales/name"
  /\ flagged_rich_text Scenario.sales_database "Sales/name"
  /\ dict_get [("Name", PList [PStr "Sales/name";
                               PStr "Collaboration~Documents/secret"])] "Name"
     = Some (PList [PStr "Sales/name"; PStr "Collaboration~Documents/secret"])
  /\ In {| rt_alias := "Name"; rt_name := PStr "Sales/name" |}
        Scenario.name_worklist.
Proof.
  assert (Hrun : get_rich_text_fields Scenario.name_select Scenario.sales_database
                 = Return (Scenario.name_worklist,
                           [("Name", PList [PStr "Sales/name";
                                            PStr "Collaboration~Documents/secret"])]))
    by (vm_compute; reflexivity).
  assert (Hget : dict_get Scenario.name_select "Name" = Some (PStr "Sales/name"))
    by reflexivity.
  assert (Hres : resolves_to (PStr "Sales/name") "Sales/name")
    by (left; reflexivity).
  assert (Hrich : flagged_rich_text Scenario.sales_database "Sales/name").
  { exists {| field_name := "Sales/name"; is_rich_text := true |}.
    split; [vm_compute; reflexivity | reflexivity]. }
  split; [exact name_select_ok|]. split; [exact Hrun|]. split; [exact Hget|].
  split; [exact Hres|]. split; [exact Hrich|].
  exact (get_rich_text_fields_substitutes Scenario.sales_database _ _ _
           name_select_ok Hrun "Name" _ "Sales/name" Hget Hres Hrich).
Defined.

(** The first scenario of the specification: the handle ["H1"] is
    replaced by the content of its document. *)
Example handle_query_resolves :
  handle_query Scenario.str_result
    (Scenario.client (Succeeded [[("Name", PStr "H1")]])) Scenario.name_arguments
  = Return [text_content "{'success': True, 'result': [{'Name': 'Hello'}]}"].
Proof. vm_compute. reflexivity. Qed.

Lemma handle_query_missing_handle_witness :
  (forall q_select,
      dict_get Scenario.name_arguments "q_select" = Some (PDict q_select) ->
      dict_ok q_select)
  /\ build_query Scenario.two_client Scenario.name_arguments
     = Return (Scenario.name_worklist, Scenario.name_document)
  /\ query Scenario.two_client (PDict Scenario.name_document)
       (dict_get_default Scenario.name_arguments "q_params" PNone)
     = Succeeded Scenario.two_entities
  /\ (exists entity field,
        In entity Scenario.two_entities /\ In field Scenario.name_worklist
        /\ truthy (dict_get_default entity (rt_alias field) PNone) = false)
  /\ exists earlier entity later before field after resolved,
       Scenario.two_entities = (earlier ++ entity :: later)%list
       /\ Scenario.name_worklist = (before ++ field :: after)%list
       /\ (forall e f, In e earlier -> In f Scenario.name_worklist ->
                       has_handle e f = true)
       /\ (forall f, In f before -> has_handle entity f = true)
       /\ has_handle entity field = false
       /\ resolve_entity Scenario.two_client entity before = inr resolved
       /\ handle_query Scenario.str_result Scenario.two_client Scenario.name_arguments
          = Return [text_content
                      ("Unable to get document content for entity "
                         +:+ py_str (PDict resolved) +:+ ". Field: "
                         +:+ py_str (ref_dict field))].
Proof.
  assert (Hok : forall q_select,
             dict_get Scenario.name_arguments "q_select" = Some (PDict q_select) ->
             dict_ok q_select).
  { intros q_select [= <-]. exact name_select_ok. }
  assert (Hbuild : build_query Scenario.two_client Scenario.name_arguments
                   = Return (Scenario.name_worklist, Scenario.name_document))
    by (vm_compute; reflexivity).
  assert (Hquery : query Scenario.two_client (PDict Scenario.name_document)
                     (dict_get_default Scenario.name_arguments "q_params" PNone)
                   = Succeeded Scenario.two_entities) by reflexivity.
  assert (Hmissing : exists entity field,
             In entity Scenario.two_entities /\ In field Scenario.name_worklist
             /\ truthy (dict_get_default entity (rt_alias field) PNone) = false).
  { exists [("Id", PStr "7")], {| rt_alias := "Name"; rt_name := PStr "Sales/name" |}.
    split; [right; left; reflexivity|]. split; [left; reflexivity|reflexivity]. }
  split; [exact Hok|]. split; [exact Hbuild|]. split; [exact Hquery|].
  split; [exact Hmissing|].
  exact (handle_query_missing_handle Scenario.str_result Scenario.two_client
           Scenario.name_arguments _ _ _ Hok Hbuild Hquery Hmissing).
Defined.

(** The diagnostic of that run, as text. *)
Example handle_query_diagnostic :
  handle_query Scenario.str_result
    (Scenario.client (Succeeded [[("Name", PStr "H1")]; [("Id", PStr "7")]]))
    Scenario.name_arguments
  = Return [text_content
              ("Unable to get document content for entity {'Id': '7'}. "
                 +:+ "Field: {'alias': 'Name', 'name': 'Sales/name'}")].
Proof. vm_compute. reflexivity. Qed.

End QueryWitnesses.

(** ** The search scanner *)

Section SearchScanner.

Import Search.

(** Python's built-in [str.lower()]: the properties of the scanner hold
    whatever it computes. *)
Variable lower : string -> string.

Lemma append_String c (s t : string) : String c s +:+ t = String c (s +:+ t).
Proof. reflexivity. Qed.

Lemma append_nil_r (s : string) : s +:+ "" = s.
Proof. induction s as [|c s IH]; [reflexivity|]. rewrite append_String. now rewrite IH. Qed.

Lemma append_assoc (a b c : string) : (a +:+ b) +:+ c = a +:+ (b +:+ c).
Proof.
  induction a as [|x a IH]; [reflexivity|]. rewrite !append_String. now rewrite IH.
Qed.

(** Two strings that end with different characters are different. *)
Lemma append_last_neq (a b : string) (c d : ascii) :
  c <> d -> a +:+ String c "" <> b +:+ String d "".
Proof.
  intros Hcd. revert b. induction a as [|x a IH]; intros [|y b] H.
  - injection H as H. contradiction.
  - rewrite append_String in H. injection H as _ H. destruct b; discriminate.
  - rewrite append_String in H. injection H as _ H. destruct a; discriminate.
  - rewrite !append_String in H. injection H as _ H. exact (IH b H).
Qed.

Lemma prefix_spec (needle haystack : string) :
  String.prefix needle haystack = true <-> exists post, haystack = needle +:+ post.
Proof.
  revert haystack. induction needle as [|c needle IH]; intros haystack.
  - split; [intros _; now exists haystack | intros _; now destruct haystack].
  - destruct haystack as [|c' haystack]; simpl.
    + split; [discriminate|]. intros [post H]. discriminate.
    + destruct (Ascii.ascii_dec c c') as [->|Hne].
      * rewrite IH. split; intros [post H]; exists post;
          rewrite append_String in *; congruence.
      * split; [discriminate|]. intros [post H].
        rewrite append_String in H. congruence.
Qed.

Lemma contains_cons needle c haystack :
  contains needle (String c haystack)
  = String.prefix needle (String c haystack) || contains needle haystack.
Proof. reflexivity. Qed.

(** [contains] is the substring test. *)
Lemma contains_spec (needle haystack : string) :
  contains needle haystack = true
  <-> exists pre post, haystack = pre +:+ needle +:+ post.
Proof.
  induction haystack as [|c haystack IH].
  - change (contains needle "") with (String.prefix needle "" || false).
    rewrite orb_false_r, prefix_spec. split.
    + intros [post H]. exists "", post. exact H.
    + intros [pre [post H]]. destruct pre; [eauto|discriminate].
  - rewrite contains_cons, orb_true_iff, IH, prefix_spec. split.
    + intros [[post H]|[pre [post H]]].
      * exists "", post. exact H.
      * exists (String c pre), post. rewrite append_String. now rewrite H.
    + intros [pre [post H]]. destruct pre as [|c' pre].
      * left. eauto.
      * right. rewrite append_String in H. injection H as _ H. eauto.
Qed.

Lemma value_matches_spec query field_value :
  value_matches lower query field_value = true
  <-> exists s, field_value = PStr s /\ s <> "" /\ contains query (lower s) = true.
Proof.
  unfold value_matches. split.
  - intros H. apply andb_prop in H as [Ht Hc].
    destruct field_value; try discriminate. exists s. split; [reflexivity|].
    split; [|exact Hc]. intros ->. discriminate.
  - intros (s & -> & Hs & Hc). simpl. rewrite Hc.
    destruct (String.eqb_spec s ""); [contradiction|reflexivity].
Qed.

Lemma match_found_spec q_select query entity search_fields :
  match_found lower q_select query entity search_fields = true
  <-> exists search_field,
        In search_field search_fields
        /\ value_matches lower query (field_value_of q_select entity search_field) = true.
Proof.
  induction search_fields as [|search_field rest IH]; simpl.
  - split; [discriminate|]. intros [? [[] _]].
  - destruct (value_matches lower query (field_value_of q_select entity search_field)) eqn:E.
    + split; [|reflexivity]. intros _. exists search_field. auto.
    + rewrite IH. split.
      * intros [sf [Hin Hm]]. exists sf. auto.
      * intros [sf [[<-|Hin] Hm]]; [congruence|]. exists sf. auto.
Qed.

(** The scan appends, in order, the entities for which a match is found,
    each without its probe keys. *)
Lemma filter_entities_spec q_select query search_fields entities :
  forall matching_entities,
    filter_entities lower q_select query search_fields entities matching_entities
    = (matching_entities
       ++ map filtered_entity
            (List.filter
               (fun entity => match_found lower q_select query entity search_fields)
               entities))%list.
Proof.
  induction entities as [|entity rest IH]; intros matching_entities; simpl.
  - now rewrite app_nil_r.
  - destruct (match_found lower q_select query entity search_fields); rewrite IH.
    + now rewrite <- app_assoc.
    + reflexivity.
Qed.

Lemma eq_str_true value s : eq_str value s = true <-> value = PStr s.
Proof.
  destruct value; simpl; try (split; [discriminate|intros [=]]).
  rewrite String.eqb_eq. split; [now intros ->|now intros [= ->]].
Qed.

(** The fallback loop reads the value at the key [search_field]. *)
Lemma direct_value_get entity search_field :
  direct_value entity search_field = default PNone (dict_get entity search_field).
Proof.
  induction entity as [|[key value] rest IH]; simpl; [reflexivity|].
  destruct (key =? search_field); [reflexivity|exact IH].
Qed.

(** The loop over [q_select.items()] stops at the first alias whose field
    spec equals the search field. *)
Lemma find_alias_first q_select search_field found_alias :
  find_alias q_select search_field = Some found_alias
  <-> exists before after,
        q_select = (before ++ (found_alias, PStr search_field) :: after)%list
        /\ forall kv, In kv before -> snd kv <> PStr search_field.
Proof.
  induction q_select as [|[q_alias q_field] rest IH]; simpl.
  - split; [discriminate|]. intros (before & after & H & _).
    destruct before; discriminate.
  - destruct (eq_str q_field search_field) eqn:E.
    + apply eq_str_true in E. subst q_field. split.
      * intros [= <-]. exists [], rest. split; [reflexivity|]. intros ? [].
      * intros (before & after & H & Hb). destruct before as [|kv before].
        -- simpl in H. now injection H as ->.
        -- simpl in H. injection H as <- _. exfalso.
           apply (Hb (q_alias, PStr search_field)); [now left|reflexivity].
    + rewrite IH. split.
      * intros (before & after & -> & Hb).
        exists ((q_alias, q_field) :: before), after. split; [reflexivity|].
        intros kv [<-|Hin]; [|auto]. simpl. intros ->.
        simpl in E. rewrite String.eqb_refl in E. discriminate.
      * intros (before & after & H & Hb). destruct before as [|kv before].
        -- simpl in H. injection H as _ ->. simpl in E.
           rewrite String.eqb_refl in E. discriminate.
        -- simpl in H. injection H as <- ->. exists before, after.
           split; [reflexivity|]. intros kv Hin. apply Hb. now right.
Qed.

(** Where the value of a search field is read: under its probe alias;
    else under the first alias of the select clause for that field, when
    that alias is not empty and a key of the entity; else under the field
    path as a key. *)
Lemma field_value_of_located q_select entity search_field value :
  (dict_get entity ("_search_" +:+ replace " " "_" (replace "/" "_" search_field))
   = Some value
   \/ (dict_get entity ("_search_" +:+ replace " " "_" (replace "/" "_" search_field))
       = None
       /\ exists before found_alias after,
            q_select = (before ++ (found_alias, PStr search_field) :: after)%list
            /\ (forall kv, In kv before -> snd kv <> PStr search_field)
            /\ found_alias <> ""
            /\ dict_get entity found_alias = Some value)
   \/ (dict_get entity ("_search_" +:+ replace " " "_" (replace "/" "_" search_field))
       = None
       /\ (forall before found_alias after,
             q_select = (before ++ (found_alias, PStr search_field) :: after)%list ->
             (forall kv, In kv before -> snd kv <> PStr search_field) ->
             found_alias = "" \/ dict_get entity found_alias = None)
       /\ dict_get entity search_field = Some value)) ->
  field_value_of q_select entity search_field = value.
Proof.
  unfold field_value_of, probe_alias.
  intros [H | [(Hp & before & a & after & Hq & Hb & Hne & Hv) | (Hp & Hnone & Hd)]].
  - now rewrite H.
  - rewrite Hp.
    assert (Hfind : find_alias q_select search_field = Some a)
      by (apply find_alias_first; eauto).
    rewrite Hfind. destruct (String.eqb_spec a ""); [contradiction|]. simpl.
    now rewrite Hv.
  - rewrite Hp, direct_value_get, Hd.
    destruct (find_alias q_select search_field) as [a|] eqn:E; [|reflexivity].
    apply find_alias_first in E as (before & after & Hq & Hb).
    destruct (Hnone before a after Hq Hb) as [-> | Hn]; [reflexivity|].
    rewrite Hn. now destruct (negb _).
Qed.

Lemma field_value_of_string q_select entity search_field s :
  field_value_of q_select entity search_field = PStr s ->
  dict_get entity ("_search_" +:+ replace " " "_" (replace "/" "_" search_field))
  = Some (PStr s)
  \/ (dict_get entity ("_search_" +:+ replace " " "_" (replace "/" "_" search_field))
      = None
      /\ exists before found_alias after,
           q_select = (before ++ (found_alias, PStr search_field) :: after)%list
           /\ (forall kv, In kv before -> snd kv <> PStr search_field)
           /\ found_alias <> ""
           /\ dict_get entity found_alias = Some (PStr s))
  \/ (dict_get entity ("_search_" +:+ replace " " "_" (replace "/" "_" search_field))
      = None
      /\ (forall before found_alias after,
            q_select = (before ++ (found_alias, PStr search_field) :: after)%list ->
            (forall kv, In kv before -> snd kv <> PStr search_field) ->
            found_alias = "" \/ dict_get entity found_alias = None)
      /\ dict_get entity search_field = Some (PStr s)).
Proof.
  unfold field_value_of, probe_alias.
  destruct (dict_get entity _) as [v|] eqn:Hp; [intros ->; now left|].
  assert (Hdirect : direct_value entity search_field = PStr s ->
                    dict_get entity search_field = Some (PStr s)).
  { rewrite direct_value_get. destruct (dict_get entity search_field); simpl;
      [now intros ->|discriminate]. }
  destruct (find_alias q_select search_field) as [a|] eqn:E.
  - destruct (String.eqb_spec a "") as [->|Hne]; simpl.
    + intros H. right. right. split; [reflexivity|]. split; [|auto].
      intros before a' after Hq Hb. left.
      assert (Hfind : find_alias q_select search_field = Some a')
        by (apply find_alias_first; eauto).
      congruence.
    + destruct (dict_get entity a) as [v|] eqn:Ha.
      * intros ->. right. left. split; [reflexivity|].
        apply find_alias_first in E as (before & after & Hq & Hb).
        exists before, a, after. auto.
      * intros H. right. right. split; [reflexivity|]. split; [|auto].
        intros before a' after Hq Hb. right.
        assert (Hfind : find_alias q_select search_field = Some a')
          by (apply find_alias_first; eauto).
        congruence.
  - intros H. right. right. split; [reflexivity|]. split; [|auto].
    intros before a' after Hq Hb.
    assert (Hfind : find_alias q_select search_field = Some a')
      by (apply find_alias_first; eauto).
    congruence.
Qed.

(** The text of a successful search: the scan summary, the rendered
    matching entities and, on a full page, the continuation instruction. *)
Lemma handle_search_succeeded fibery_client arguments entities :
  query fibery_client (PDict (search_document arguments)) PNone = Succeeded entities ->
  handle_search lower fibery_client arguments
  = [Query.text_content
       (("Scanned " +:+ str_of_int (Z.of_nat (length entities))
           +:+ " entities (offset " +:+ str_of_int (default 0 (arg_offset arguments))
           +:+ ", limit " +:+ str_of_int (default 500 (arg_limit arguments))
           +:+ "). Found "
           +:+ str_of_int
                 (Z.of_nat (length (matching_entities_of lower arguments entities)))
           +:+ " matches:" +:+ String newline (String newline "")
           +:+ py_str (PDict [("success", PBool true);
                              ("result",
                                PList (map PDict
                                         (matching_entities_of lower arguments
                                            entities)))]))
          +:+ (if (Z.of_nat (length entities) =? default 500 (arg_limit arguments))%Z
               then String newline (String newline "")
                      +:+ "To continue searching, call this tool again with offset="
                      +:+ str_of_int (default 0 (arg_offset arguments)
                                      + default 500 (arg_limit arguments))
                      +:+ "."
               else ""))].
Proof.
  intros Hquery. unfold handle_search. rewrite Hquery.
  unfold result_text, continue_text, limit_of, offset_of.
  destruct (Z.of_nat (length entities) =? default 500 (arg_limit arguments))%Z;
    [reflexivity|now rewrite append_nil_r].
Qed.

Lemma matching_entities_of_filter arguments entities :
  matching_entities_of lower arguments entities
  = map (fun entity =>
           List.filter (fun kv => negb (String.prefix "_search_" (fst kv))) entity)
      (List.filter
         (fun entity =>
            match_found lower (q_select_of arguments) (lower (arg_query arguments))
              entity (search_fields_of arguments))
         entities).
Proof. unfold matching_entities_of. now rewrite filter_entities_spec. Qed.

(** C3, as the code has it. On a successful execution the result rendered
    in the output is made of the entities the scan keeps, in the order the
    executor returned them, each without its probe keys.  An entity is kept
    if and only if, for at least one of the search fields (those given, or
    the name field of the database's space when none is given), the value
    located for it is a string that is not empty and whose lower-cased
    form contains the lower-cased query text.  The value is located under
    the probe alias of the field when the entity has that key; otherwise
    under the first alias of the select clause whose field spec equals the
    field path, when that alias is not empty and is a key of the entity;
    otherwise under the field path itself as a key.  A value that is
    missing or not a string gives no match. *)
Theorem search_keeps_matching fibery_client arguments entities
    search_fields return_fields q_select :
  search_fields
  = match arg_search_fields arguments with
    | Some (f :: fs) => f :: fs
    | _ => [space_of (arg_database arguments) +:+ "/name"]
    end ->
  return_fields
  = match arg_return_fields arguments with
    | Some (kv :: kvs) => kv :: kvs
    | _ => [("Name", PStr (space_of (arg_database arguments) +:+ "/name"));
            ("Id", PStr "fibery/id")]
    end ->
  q_select = build_q_select return_fields search_fields ->
  query fibery_client (PDict (search_document arguments)) PNone = Succeeded entities ->
  exists keep : dict -> bool,
    (exists summary tail,
       handle_search lower fibery_client arguments
       = [Query.text_content
            (summary
               +:+ py_str
                     (PDict
                        [("success", PBool true);
                         ("result",
                           PList
                             (map PDict
                                (map (fun entity =>
                                        List.filter
                                          (fun kv =>
                                             negb (String.prefix "_search_" (fst kv)))
                                          entity)
                                   (List.filter keep entities))))])
               +:+ tail)])
    /\ forall entity,
         keep entity = true
         <-> exists search_field value s,
               In search_field search_fields
               /\ (dict_get entity
                     ("_search_" +:+ replace " " "_" (replace "/" "_" search_field))
                   = Some value
                   \/ (dict_get entity
                         ("_search_" +:+ replace " " "_" (replace "/" "_" search_field))
                       = None
                       /\ exists before found_alias after,
                            q_select
                            = (before ++ (found_alias, PStr search_field) :: after)%list
                            /\ (forall kv, In kv before -> snd kv <> PStr search_field)
                            /\ found_alias <> ""
                            /\ dict_get entity found_alias = Some value)
                   \/ (dict_get entity
                         ("_search_" +:+ replace " " "_" (replace "/" "_" search_field))
                       = None
                       /\ (forall before found_alias after,
                             q_select
                             = (before ++ (found_alias, PStr search_field) :: after)%list ->
                             (forall kv, In kv before -> snd kv <> PStr search_field) ->
                             found_alias = "" \/ dict_get entity found_alias = None)
                       /\ dict_get entity search_field = Some value))
               /\ value = PStr s
               /\ s <> ""
               /\ contains (lower (arg_query arguments)) (lower s) = true.
Proof.
  intros Hfields Hreturn Hselect Hquery.
  assert (Hsf : search_fields_of arguments = search_fields) by now rewrite Hfields.
  assert (Hqs : q_select_of arguments = q_select).
  { unfold q_select_of. rewrite Hselect, Hreturn, Hfields. reflexivity. }
  exists (fun entity =>
            match_found lower q_select (lower (arg_query arguments)) entity
              search_fields).
  split.
  - rewrite (handle_search_succeeded _ _ _ Hquery), matching_entities_of_filter.
    rewrite Hsf, Hqs.
    exists ("Scanned " +:+ str_of_int (Z.of_nat (length entities))
              +:+ " entities (offset " +:+ str_of_int (default 0 (arg_offset arguments))
              +:+ ", limit " +:+ str_of_int (default 500 (arg_limit arguments))
              +:+ "). Found "
              +:+ str_of_int
                    (Z.of_nat
                       (length
                          (map filtered_entity
                             (List.filter
                                (fun entity =>
                                   match_found lower q_select
                                     (lower (arg_query arguments)) entity search_fields)
                                entities))))
              +:+ " matches:" +:+ String newline (String newline "")),
      (if (Z.of_nat (length entities) =? default 500 (arg_limit arguments))%Z
       then String newline (String newline "")
              +:+ "To continue searching, call this tool again with offset="
              +:+ str_of_int (default 0 (arg_offset arguments)
                              + default 500 (arg_limit arguments))
              +:+ "."
       else "").
    f_equal. f_equal. now rewrite !append_assoc.
  - intros entity. rewrite match_found_spec. split.
    + intros (search_field & Hin & Hm).
      apply value_matches_spec in Hm as (s & Hv & Hs & Hc).
      exists search_field, (PStr s), s. split; [exact Hin|].
      split; [now apply field_value_of_string|auto].
    + intros (search_field & value & s & Hin & Hloc & -> & Hs & Hc).
      exists search_field. split; [exact Hin|].
      apply value_matches_spec. exists s.
      split; [now apply field_value_of_located|auto].
Qed.

(** C9. When the executor succeeds, the output of [handle_search] is the
    scan summary, the rendered result and, at most, the continuation
    instruction; the entities of the rendered result are the matching
    entities, each one an entity of the executor's result filtered of its
    keys that start with ["_search_"], so that no rendered entity has such
    a key. *)
Theorem handle_search_strips_probes fibery_client arguments entities :
  query fibery_client (PDict (search_document arguments)) PNone = Succeeded entities ->
  exists (keep : dict -> bool) (rendered : list dict) (tail : string),
    handle_search lower fibery_client arguments
    = [Query.text_content
         (("Scanned " +:+ str_of_int (Z.of_nat (length entities))
             +:+ " entities (offset " +:+ str_of_int (default 0 (arg_offset arguments))
             +:+ ", limit " +:+ str_of_int (default 500 (arg_limit arguments))
             +:+ "). Found " +:+ str_of_int (Z.of_nat (length rendered))
             +:+ " matches:" +:+ String newline (String newline "")
             +:+ py_str (PDict [("success", PBool true);
                                ("result", PList (map PDict rendered))]))
            +:+ tail)]
    /\ (tail = ""
        \/ tail = String newline (String newline "")
                    +:+ "To continue searching, call this tool again with offset="
                    +:+ str_of_int (default 0 (arg_offset arguments)
                                    + default 500 (arg_limit arguments))
                    +:+ ".")
    /\ rendered = matching_entities_of lower arguments entities
    /\ rendered
       = map (fun entity =>
                List.filter (fun kv => negb (String.prefix "_search_" (fst kv))) entity)
           (List.filter keep entities)
    /\ forall entity key,
         In entity rendered -> In key (dict_keys entity) ->
         String.prefix "_search_" key = false.
Proof.
  intros Hquery.
  exists (fun entity =>
            match_found lower (q_select_of arguments) (lower (arg_query arguments))
              entity (search_fields_of arguments)),
    (matching_entities_of lower arguments entities),
    (if (Z.of_nat (length entities) =? default 500 (arg_limit arguments))%Z
     then String newline (String newline "")
            +:+ "To continue searching, call this tool again with offset="
            +:+ str_of_int (default 0 (arg_offset arguments)
                            + default 500 (arg_limit arguments))
            +:+ "."
     else "").
  split; [exact (handle_search_succeeded _ _ _ Hquery)|].
  split; [destruct (_ =? _)%Z; auto|].
  split; [reflexivity|].
  split; [apply matching_entities_of_filter|].
  intros entity key Hentity Hkey. rewrite matching_entities_of_filter in Hentity.
  apply in_map_iff in Hentity as (original & <- & _).
  apply in_map_iff in Hkey as ([k v] & <- & Hkv).
  apply filter_In in Hkv as [_ Hkv]. simpl in *.
  now apply negb_true_iff in Hkv.
Qed.

(** C6. A search sends the requested limit and the given offset, 500 and
    0 when they are left out, to the executor.  When the executor returns
    exactly as many entities as the limit, the output text is the scan
    summary and the rendered result followed by the instruction to call
    again with offset = the given offset + the limit; when it returns
    fewer, the text is the summary and the result alone, which does not
    end with such an instruction for any offset. *)
Theorem handle_search_continuation fibery_client arguments entities limit offset body :
  limit = default 500 (arg_limit arguments) ->
  offset = default 0 (arg_offset arguments) ->
  query fibery_client
    (PDict [("q/from", PStr (arg_database arguments));
            ("q/select", PDict (q_select_of arguments));
            ("q/limit", PInt limit);
            ("q/offset", PInt offset);
            ("q/order", PList [PStr "fibery/creation-date"; PStr "desc"])])
    PNone
  = Succeeded entities ->
  body
  = "Scanned " +:+ str_of_int (Z.of_nat (length entities))
      +:+ " entities (offset " +:+ str_of_int offset
      +:+ ", limit " +:+ str_of_int limit
      +:+ "). Found "
      +:+ str_of_int (Z.of_nat (length (matching_entities_of lower arguments entities)))
      +:+ " matches:" +:+ String newline (String newline "")
      +:+ py_str (PDict [("success", PBool true);
                         ("result",
                           PList (map PDict
                                    (matching_entities_of lower arguments entities)))]) ->
  (Z.of_nat (length entities) = limit ->
   handle_search lower fibery_client arguments
   = [Query.text_content
        (body +:+ String newline (String newline "")
           +:+ "To continue searching, call this tool again with offset="
           +:+ str_of_int (offset + limit) +:+ ".")])
  /\ ((Z.of_nat (length entities) < limit)%Z ->
      handle_search lower fibery_client arguments = [Query.text_content body]
      /\ forall before n,
           body
           <> before +:+ "To continue searching, call this tool again with offset="
                +:+ str_of_int n +:+ ".").
Proof.
  intros -> -> Hquery ->.
  rewrite (handle_search_succeeded fibery_client arguments entities Hquery).
  split; intros Hlen.
  - rewrite Hlen, Z.eqb_refl. reflexivity.
  - destruct (Z.eqb_spec (Z.of_nat (length entities)) (default 500 (arg_limit arguments)))
      as [Heq|_]; [lia|].
    split; [now rewrite append_nil_r|].
    intros before n.
    change (py_str (PDict ?entries))
      with ("{" +:+ String.concat ", "
                      (map (fun kv => repr_str (fst kv) +:+ ": " +:+ py_repr (snd kv))
                         entries)
                +:+ "}").
    rewrite <- !append_assoc. apply append_last_neq. discriminate.
Qed.

(** C7, as the code has it: the document of a search has no ["q/order-by"]
    key; it carries the ordering under the key ["q/order"], as the flat
    list of a field name and ["desc"]. *)
Theorem search_document_order arguments :
  dict_get (search_document arguments) "q/order-by" = None
  /\ dict_get (search_document arguments) "q/order"
     = Some (PList [PStr "fibery/creation-date"; PStr "desc"])
  /\ dict_keys (search_document arguments)
     = ["q/from"; "q/select"; "q/limit"; "q/offset"; "q/order"].
Proof. repeat split; reflexivity. Qed.

End SearchScanner.

(** ** The search scanner on the scenarios *)

Section SearchWitnesses.

Import Search.

Lemma search_keeps_matching_witness :
  ["Sales/name"]
  = match arg_search_fields Scenario.page_arguments with
    | Some (f :: fs) => f :: fs
    | _ => [space_of (arg_database Scenario.page_arguments) +:+ "/name"]
    end
  /\ [("Id", PStr "fibery/id")]
     = match arg_return_fields Scenario.page_arguments with
       | Some (kv :: kvs) => kv :: kvs
       | _ => [("Name", PStr (space_of (arg_database Scenario.page_arguments)
                              +:+ "/name"));
               ("Id", PStr "fibery/id")]
       end
  /\ Scenario.acme_select = build_q_select [("Id", PStr "fibery/id")] ["Sales/name"]
  /\ query Scenario.page_client (PDict (search_document Scenario.page_arguments)) PNone
     = Succeeded Scenario.page_entities
  /\ exists summary tail,
       handle_search ascii_lower Scenario.page_client Scenario.page_arguments
       = [Query.text_content
            (summary +:+ "{'success': True, 'result': [{'Id': '2'}]}" +:+ tail)].
Proof.
  assert (Hfields : ["Sales/name"]
                    = match arg_search_fields Scenario.page_arguments with
                      | Some (f :: fs) => f :: fs
                      | _ => [space_of (arg_database Scenario.page_arguments) +:+ "/name"]
                      end) by reflexivity.
  assert (Hreturn : [("Id", PStr "fibery/id")]
                    = match arg_return_fields Scenario.page_arguments with
                      | Some (kv :: kvs) => kv :: kvs
                      | _ => [("Name", PStr (space_of (arg_database Scenario.page_arguments)
                                             +:+ "/name"));
                              ("Id", PStr "fibery/id")]
                      end) by reflexivity.
  assert (Hselect : Scenario.acme_select
                    = build_q_select [("Id", PStr "fibery/id")] ["Sales/name"])
    by reflexivity.
  assert (Hquery : query Scenario.page_client
                     (PDict (search_document Scenario.page_arguments)) PNone
                   = Succeeded Scenario.page_entities) by reflexivity.
  split; [exact Hfields|]. split; [exact Hreturn|]. split; [exact Hselect|].
  split; [exact Hquery|].
  destruct (search_keeps_matching ascii_lower Scenario.page_client
              Scenario.page_arguments Scenario.page_entities
              ["Sales/name"] [("Id", PStr "fibery/id")] Scenario.acme_select
              Hfields Hreturn Hselect Hquery)
    as (keep & (summary & tail & Htext) & Hkeep).
  assert (Hrejects : forall id name,
            contains "acme" (ascii_lower name) = false ->
            keep [("Id", PStr id); ("_search_Sales_name", PStr name)] = false).
  { intros id name Hname.
    destruct (keep [("Id", PStr id); ("_search_Sales_name", PStr name)]) eqn:E;
      [|reflexivity].
    apply Hkeep in E as (search_field & value & s & [<-|[]] & Hloc & -> & _ & Hc).
    destruct Hloc as [H | [(H & _) | (H & _)]]; try discriminate H.
    injection H as <-.
    change (contains "acme" (ascii_lower name) = true) in Hc. congruence. }
  assert (Hkeeps : keep [("Id", PStr "2"); ("_search_Sales_name", PStr "Acme Ltd")]
                   = true).
  { apply Hkeep. exists "Sales/name", (PStr "Acme Ltd"), "Acme Ltd".
    split; [now left|]. split; [now left|]. split; [reflexivity|].
    split; [discriminate|reflexivity]. }
  exists summary, tail. rewrite Htext. unfold Scenario.page_entities.
  cbn [List.filter]. rewrite Hkeeps, !Hrejects by reflexivity. reflexivity.
Defined.

(** C3 as it is stated fails on three inputs, on each of which the entity
    holds, under an alias of the select clause whose field spec equals the
    search field, a string that contains the lower-cased query text, and
    the scan does not keep the entity: an empty name for the empty query
    text; a name under the empty alias; a name under the second of two
    aliases for the field. *)
Lemma search_keeps_matching_counterexample :
  (search_fields_of Scenario.empty_query_arguments = ["Sales/name"]
   /\ q_select_of Scenario.empty_query_arguments
      = [("Name", PStr "Sales/name"); ("Id", PStr "fibery/id")]
   /\ dict_get Scenario.unnamed_entity "_search_Sales_name" = None
   /\ dict_get Scenario.unnamed_entity "Name" = Some (PStr "")
   /\ contains (ascii_lower (arg_query Scenario.empty_query_arguments)) (ascii_lower "")
      = true
   /\ handle_search ascii_lower
        (Scenario.client (Succeeded [Scenario.unnamed_entity]))
        Scenario.empty_query_arguments
      = [Query.text_content Scenario.nothing_found])
  /\ (search_fields_of Scenario.blank_alias_arguments = ["Sales/name"]
      /\ q_select_of Scenario.blank_alias_arguments = [("", PStr "Sales/name")]
      /\ dict_get Scenario.blank_alias_entity "_search_Sales_name" = None
      /\ dict_get Scenario.blank_alias_entity "" = Some (PStr "acme")
      /\ contains (ascii_lower (arg_query Scenario.blank_alias_arguments))
           (ascii_lower "acme") = true
      /\ handle_search ascii_lower
           (Scenario.client (Succeeded [Scenario.blank_alias_entity]))
           Scenario.blank_alias_arguments
         = [Query.text_content Scenario.nothing_found])
  /\ (search_fields_of Scenario.two_alias_arguments = ["Sales/name"]
      /\ q_select_of Scenario.two_alias_arguments
         = [("First", PStr "Sales/name"); ("Second", PStr "Sales/name")]
      /\ dict_get Scenario.second_alias_entity "_search_Sales_name" = None
      /\ dict_get Scenario.second_alias_entity "Second" = Some (PStr "acme")
      /\ contains (ascii_lower (arg_query Scenario.two_alias_arguments))
           (ascii_lower "acme") = true
      /\ handle_search ascii_lower
           (Scenario.client (Succeeded [Scenario.second_alias_entity]))
           Scenario.two_alias_arguments
         = [Query.text_content Scenario.nothing_found]).
Proof. repeat split; vm_compute; reflexivity. Qed.

Lemma handle_search_strips_probes_witness :
  query Scenario.acme_client (PDict (search_document Scenario.acme_arguments)) PNone
  = Succeeded Scenario.acme_entities
  /\ exists (keep : dict -> bool) (rendered : list dict) (tail : string),
       handle_search ascii_lower Scenario.acme_client Scenario.acme_arguments
       = [Query.text_content
            (("Scanned " +:+ str_of_int (Z.of_nat (length Scenario.acme_entities))
                +:+ " entities (offset "
                +:+ str_of_int (default 0 (arg_offset Scenario.acme_arguments))
                +:+ ", limit "
                +:+ str_of_int (default 500 (arg_limit Scenario.acme_arguments))
                +:+ "). Found " +:+ str_of_int (Z.of_nat (length rendered))
                +:+ " matches:" +:+ String newline (String newline "")
                +:+ py_str (PDict [("success", PBool true);
                                   ("result", PList (map PDict rendered))]))
               +:+ tail)]
       /\ (tail = ""
           \/ tail = String newline (String newline "")
                       +:+ "To continue searching, call this tool again with offset="
                       +:+ str_of_int (default 0 (arg_offset Scenario.acme_arguments)
                                       + default 500 (arg_limit Scenario.acme_arguments))
                       +:+ ".")
       /\ rendered = matching_entities_of ascii_lower Scenario.acme_arguments
                       Scenario.acme_entities
       /\ rendered
          = map (fun entity =>
                   List.filter (fun kv => negb (String.prefix "_search_" (fst kv)))
                     entity)
              (List.filter keep Scenario.acme_entities)
       /\ forall entity key,
            In entity rendered -> In key (dict_keys entity) ->
            String.prefix "_search_" key = false.
Proof.
  split; [reflexivity|].
  apply (handle_search_strips_probes ascii_lower Scenario.acme_client
           Scenario.acme_arguments Scenario.acme_entities).
  reflexivity.
Defined.

Lemma handle_search_continuation_witness :
  (2 = default 500 (arg_limit Scenario.acme_arguments)
   /\ 4 = default 0 (arg_offset Scenario.acme_arguments)
   /\ query Scenario.acme_client (PDict Scenario.acme_document) PNone
      = Succeeded Scenario.acme_entities
   /\ handle_search ascii_lower Scenario.acme_client Scenario.acme_arguments
      = [Query.text_content
           (Scenario.acme_body +:+ String newline (String newline "")
              +:+ "To continue searching, call this tool again with offset="
              +:+ "6" +:+ ".")])
  /\ (50 = default 500 (arg_limit Scenario.page_arguments)
      /\ 0 = default 0 (arg_offset Scenario.page_arguments)
      /\ query Scenario.page_client (PDict Scenario.page_document) PNone
         = Succeeded Scenario.page_entities
      /\ handle_search ascii_lower Scenario.page_client Scenario.page_arguments
         = [Query.text_content Scenario.page_body]).
Proof.
  split.
  - split; [reflexivity|]. split; [reflexivity|]. split; [reflexivity|].
    apply (handle_search_continuation ascii_lower Scenario.acme_client
             Scenario.acme_arguments Scenario.acme_entities 2 4 Scenario.acme_body);
      reflexivity.
  - split; [reflexivity|]. split; [reflexivity|]. split; [reflexivity|].
    apply (handle_search_continuation ascii_lower Scenario.page_client
             Scenario.page_arguments Scenario.page_entities 50 0 Scenario.page_body);
      reflexivity.
Defined.

(** The third scenario of the specification, with the given offset 4: a
    full page of two, both matching. *)
Example handle_search_full_page :
  handle_search ascii_lower Scenario.acme_client Scenario.acme_arguments
  = [Query.text_content
       ("Scanned 2 entities (offset 4, limit 2). Found 2 matches:"
          +:+ String newline (String newline EmptyString)
          +:+ "{'success': True, 'result': [{'Id': '1'}, {'Id': '2'}]}"
          +:+ String newline (String newline EmptyString)
          +:+ "To continue searching, call this tool again with offset=6.")].
Proof. vm_compute. reflexivity. Qed.

(** The fourth scenario: three entities for a limit of 50, one matching,
    and no instruction. *)
Example handle_search_short_page :
  handle_search ascii_lower Scenario.page_client Scenario.page_arguments
  = [Query.text_content
       ("Scanned 3 entities (offset 0, limit 50). Found 1 matches:"
          +:+ String newline (String newline EmptyString)
          +:+ "{'success': True, 'result': [{'Id': '2'}]}")].
Proof. vm_compute. reflexivity. Qed.

End SearchWitnesses.

(** ** The copy of the select clause *)

Section StoreFacts.

Import Store.

(** Induction on values, through the members of lists, tuples and dicts. *)
Lemma pyval_nested_ind (P : pyval -> Prop) :
  P PNone -> (forall b, P (PBool b)) -> (forall n, P (PInt n)) ->
  (forall s, P (PStr s)) ->
  (forall items, Forall P items -> P (PList items)) ->
  (forall items, Forall P items -> P (PTuple items)) ->
  (forall entries, Forall (fun kv => P (snd kv)) entries -> P (PDict entries)) ->
  forall t, P t.
Proof.
  intros HNone HBool HInt HStr HList HTuple HDict.
  fix IH 1. intros [| b | n | s | items | items | entries].
  - exact HNone.
  - apply HBool.
  - apply HInt.
  - apply HStr.
  - apply HList. induction items as [|t items IHitems]; constructor; auto.
  - apply HTuple. induction items as [|t items IHitems]; constructor; auto.
  - apply HDict. induction entries as [|[k t] entries IHentries]; constructor; auto.
Qed.

Lemma repr_list σ ts x :
  repr σ (PList ts) x
  <-> exists l items, x = VRef l /\ σ !! l = Some (OList items) /\ items_repr σ ts items.
Proof.
  simpl. split; intros (l & items & Hx & Hl & Hall); exists l, items;
    (split; [exact Hx|]); (split; [exact Hl|]); clear Hl Hx.
  - revert items Hall. induction ts as [|t ts IH]; intros [|y items] Hall;
      try contradiction; constructor; [tauto|]. apply IH. tauto.
  - induction Hall; [exact I|]. split; assumption.
Qed.

Lemma repr_dict σ ts x :
  repr σ (PDict ts) x
  <-> exists l entries,
        x = VRef l /\ σ !! l = Some (ODict entries) /\ entries_repr σ ts entries.
Proof.
  simpl. split; intros (l & entries & Hx & Hl & Hall); exists l, entries;
    (split; [exact Hx|]); (split; [exact Hl|]); clear Hl Hx.
  - revert entries Hall. induction ts as [|[k t] ts IH]; intros [|[k' y] entries] Hall;
      try contradiction; constructor; [simpl; tauto|]. apply IH. tauto.
  - induction Hall as [|[k t] [k' y] ts entries [Hk Hr] Hall IH]; [exact I|].
    simpl in *. auto.
Qed.

(** A value keeps its reading in a store that extends the one it is read
    in. *)
Lemma repr_weaken σ σ' t :
  σ ⊆ σ' -> forall x, repr σ t x -> repr σ' t x.
Proof.
  intros Hsub. induction t as [| | | |items IH|items IH|entries IH] using pyval_nested_ind;
    intros x; try (simpl; tauto).
  - rewrite !repr_list. intros (l & xs & -> & Hl & Hall).
    exists l, xs. split; [reflexivity|]. split; [eapply lookup_weaken; eauto|].
    unfold items_repr in *. clear Hl. revert xs Hall.
    induction IH as [|t items Ht _ IHitems]; intros xs Hall; inversion Hall; subst;
      constructor; auto.
  - rewrite !repr_dict. intros (l & es & -> & Hl & Hall).
    exists l, es. split; [reflexivity|]. split; [eapply lookup_weaken; eauto|].
    unfold entries_repr in *. clear Hl. revert es Hall.
    induction IH as [|t entries Ht _ IHentries]; intros es Hall; inversion Hall; subst;
      constructor; intuition auto.
Qed.

Lemma alloc_spec (σ σ' : store) o l :
  alloc σ o = (σ', l) -> σ !! l = None /\ σ' = <[l := o]> σ.
Proof.
  unfold alloc. intros [= <- <-]. split; [|reflexivity].
  apply not_elem_of_dom. apply is_fresh.
Qed.

Lemma alloc_subseteq (σ σ' : store) o l : alloc σ o = (σ', l) -> σ ⊆ σ'.
Proof. intros [Hl ->]%alloc_spec. now apply insert_subseteq. Qed.

Lemma items_repr_weaken (σ σ' : store) ts xs :
  σ ⊆ σ' -> items_repr σ ts xs -> items_repr σ' ts xs.
Proof.
  intros Hsub Hall. induction Hall; constructor; eauto using repr_weaken.
Qed.

Lemma entries_repr_weaken (σ σ' : store) ts es :
  σ ⊆ σ' -> entries_repr σ ts es -> entries_repr σ' ts es.
Proof.
  intros Hsub Hall. induction Hall as [|t e ts es [Hk Hr] _ IH]; constructor;
    eauto using repr_weaken.
Qed.

Lemma entries_repr_split (σ : store) ts es :
  entries_repr σ ts es
  <-> map fst ts = map fst es /\ items_repr σ (map snd ts) (map snd es).
Proof.
  split.
  - intros Hall. induction Hall as [|t e ts es [Hk Hr] _ [IHk IHr]]; simpl.
    + split; [reflexivity|constructor].
    + split; [congruence|now constructor].
  - revert es. induction ts as [|t ts IH]; intros [|e es] [Hk Hr];
      try discriminate; [constructor|].
    simpl in Hk, Hr. injection Hk as Hk Hks. inversion Hr; subst.
    constructor; [auto|]. apply IH. auto.
Qed.

Lemma entries_repr_zip (σ : store) ts ks vs :
  map fst ts = ks -> items_repr σ (map snd ts) vs -> entries_repr σ ts (zip ks vs).
Proof.
  intros <-. revert vs. induction ts as [|t ts IH]; intros vs Hall;
    inversion Hall; subst; simpl; constructor.
  - split; [reflexivity|assumption].
  - now apply IH.
Qed.

Lemma copy_items_spec fuel ts :
  Forall (copies fuel) ts ->
  forall (σ : store) xs,
    items_repr σ ts xs ->
    exists σ' ys,
      copy_items (deepcopy fuel) σ xs = Some (σ', ys)
      /\ σ ⊆ σ' /\ items_repr σ' ts ys.
Proof.
  induction 1 as [|t ts Ht _ IH]; intros σ xs Hall; inversion Hall as [|? x ? xs' Hx Hxs];
    subst; simpl.
  - exists σ, []. split; [reflexivity|]. split; [reflexivity|constructor].
  - destruct (Ht σ x Hx) as (σ1 & y & -> & Hsub1 & Hy).
    destruct (IH σ1 xs' (items_repr_weaken _ _ _ _ Hsub1 Hxs))
      as (σ2 & ys & -> & Hsub2 & Hys).
    exists σ2, (y :: ys). split; [reflexivity|]. split; [now transitivity σ1|].
    constructor; [eapply repr_weaken; eauto|exact Hys].
Qed.

Lemma depth_items (ts : list pyval) n :
  (fold_right (fun t d => Nat.max (depth t) d) O ts <= n)%nat ->
  Forall (fun t => (depth t <= n)%nat) ts.
Proof.
  induction ts as [|t ts IH]; simpl; intros H; constructor; [lia|]. apply IH. lia.
Qed.

Lemma depth_entries (ts : dict) n :
  (fold_right (fun kt d => Nat.max (depth (snd kt)) d) O ts <= n)%nat ->
  Forall (fun kt => (depth (snd kt) <= n)%nat) ts.
Proof.
  induction ts as [|t ts IH]; simpl; intros H; constructor; [lia|]. apply IH. lia.
Qed.

Lemma deepcopy_ref fuel (σ : store) l :
  deepcopy (S fuel) σ (VRef l)
  = match σ !! l with
    | None => None
    | Some (OList items) =>
        match copy_items (deepcopy fuel) σ items with
        | None => None
        | Some (σ1, items') =>
            let '(σ2, l') := alloc σ1 (OList items') in Some (σ2, VRef l')
        end
    | Some (ODict entries) =>
        match copy_items (deepcopy fuel) σ (map snd entries) with
        | None => None
        | Some (σ1, values') =>
            let '(σ2, l') := alloc σ1 (ODict (zip (map fst entries) values')) in
            Some (σ2, VRef l')
        end
    end.
Proof. reflexivity. Qed.

(** The copy of a dict: its members are copied into [σ1], and the new
    dict is put at a location [σ1] does not use. *)
Lemma deepcopy_dict_step fuel ts :
  Forall (fun kt => copies fuel (snd kt)) ts ->
  forall (σ : store) x,
    repr σ (PDict ts) x ->
    exists σ1 safe entries,
      deepcopy (S fuel) σ x = Some (<[safe := ODict entries]> σ1, VRef safe)
      /\ σ ⊆ σ1 /\ σ1 !! safe = None /\ entries_repr σ1 ts entries.
Proof.
  intros Hcopies σ x (l & es & -> & Hl & Hall)%repr_dict.
  apply entries_repr_split in Hall as [Hkeys Hvalues].
  destruct (copy_items_spec fuel (map snd ts)) with (σ := σ) (xs := map snd es)
    as (σ1 & values' & Hcopy & Hsub & Hvalues'); [|exact Hvalues|].
  { clear -Hcopies. induction Hcopies; constructor; auto. }
  rewrite deepcopy_ref, Hl, Hcopy.
  destruct (alloc σ1 (ODict (zip (map fst es) values'))) as [σ2 safe] eqn:Halloc.
  apply alloc_spec in Halloc as [Hfresh ->].
  exists σ1, safe, (zip (map fst es) values'). split; [reflexivity|].
  split; [exact Hsub|]. split; [exact Hfresh|].
  now apply entries_repr_zip.
Qed.

(** With fuel for the depth of the value, [deepcopy] returns a copy that
    reads as the value, in a store that extends the given one. *)
Lemma deepcopy_spec t :
  forall fuel, (depth t <= fuel)%nat -> copies fuel t.
Proof.
  induction t as [| | | |items IH|items IH|entries IH] using pyval_nested_ind;
    intros fuel Hfuel σ x Hx;
    try (simpl in Hx; subst x; exists σ; eexists;
         split; [destruct fuel; reflexivity|]; split; reflexivity).
  - destruct fuel as [|fuel]; [simpl in Hfuel; lia|].
    simpl in Hfuel. apply le_S_n, depth_items in Hfuel.
    apply repr_list in Hx as (l & xs & -> & Hl & Hall).
    destruct (copy_items_spec fuel items) with (σ := σ) (xs := xs)
      as (σ1 & ys & Hcopy & Hsub & Hys); [|exact Hall|].
    { clear -IH Hfuel. induction IH; inversion Hfuel; subst; constructor; auto. }
    rewrite deepcopy_ref, Hl, Hcopy.
    destruct (alloc σ1 (OList ys)) as [σ2 l'] eqn:Halloc.
    pose proof (alloc_subseteq _ _ _ _ Halloc) as Hsub2.
    apply alloc_spec in Halloc as [Hfresh ->].
    eexists _, _. split; [reflexivity|]. split; [now transitivity σ1|].
    apply repr_list. exists l', ys. split; [reflexivity|].
    split; [apply lookup_insert_eq|]. eapply items_repr_weaken; eauto.
  - contradiction.
  - destruct fuel as [|fuel]; [simpl in Hfuel; lia|].
    simpl in Hfuel. apply le_S_n, depth_entries in Hfuel.
    destruct (deepcopy_dict_step fuel entries) with (σ := σ) (x := x)
      as (σ1 & safe & es & Hcopy & Hsub & Hfresh & Hes); [|exact Hx|].
    { clear -IH Hfuel. induction IH; inversion Hfuel; subst; constructor; auto. }
    eexists _, _. split; [exact Hcopy|].
    assert (Hsub2 : σ1 ⊆ <[safe := ODict es]> σ1) by now apply insert_subseteq.
    split; [now transitivity σ1|].
    apply repr_dict. exists safe, es. split; [reflexivity|].
    split; [apply lookup_insert_eq|]. eapply entries_repr_weaken; eauto.
Qed.

Lemma deepcopy_dict fuel ts :
  (depth (PDict ts) <= fuel)%nat ->
  forall (σ : store) x,
    repr σ (PDict ts) x ->
    exists σ1 safe entries,
      deepcopy fuel σ x = Some (<[safe := ODict entries]> σ1, VRef safe)
      /\ σ ⊆ σ1 /\ σ1 !! safe = None /\ entries_repr σ1 ts entries.
Proof.
  intros Hfuel. destruct fuel as [|fuel]; [simpl in Hfuel; lia|].
  simpl in Hfuel. apply le_S_n, depth_entries in Hfuel.
  apply deepcopy_dict_step.
  induction Hfuel; constructor; auto using deepcopy_spec.
Qed.

Lemma leaf_field_name_sim (σ0 σ : store) spec x :
  σ0 ⊆ σ -> repr σ0 spec x ->
  match Query.leaf_field_name spec with
  | Raise e => leaf_field_name σ x = Raise e
  | Return None => leaf_field_name σ x = Return None
  | Return (Some key) =>
      exists kx, leaf_field_name σ x = Return (Some kx) /\ repr σ0 key kx
  end.
Proof.
  intros Hsub Hx. destruct spec as [| | | s | ts | ts | ts].
  1-4: simpl in Hx; subst x; simpl; eauto.
  - apply repr_list in Hx as (l & xs & -> & Hl & Hall).
    apply (lookup_weaken _ _ _ _ Hl) in Hsub. simpl. rewrite Hsub.
    inversion Hall; subst; simpl; eauto.
  - contradiction.
  - apply repr_dict in Hx as (l & es & -> & Hl & Hall).
    apply (lookup_weaken _ _ _ _ Hl) in Hsub. simpl. now rewrite Hsub.
Qed.

Lemma get_field_sim {A : Type} (m : gmap string A) (σ0 : store) key kx :
  repr σ0 key kx -> get_field m kx = map_get m key.
Proof.
  destruct key; simpl; try (intros ->; reflexivity); try contradiction.
  - intros (l & ? & -> & _). reflexivity.
  - intros (l & ? & -> & _). reflexivity.
Qed.

Lemma entries_repr_set (σ : store) ts es k t x :
  entries_repr σ ts es -> repr σ t x ->
  entries_repr σ (dict_set ts k t) (dict_set es k x).
Proof.
  intros Hall Hx.
  induction Hall as [|[k1 t1] [k2 x2] ts es [Hk Hr] Htail IH]; simpl in *.
  - constructor; [split; [reflexivity|exact Hx]|constructor].
  - subst k2. destruct (k1 =? k); constructor; simpl; auto.
Qed.

Lemma entries_repr_keys (σ : store) ts es :
  entries_repr σ ts es -> dict_keys ts = dict_keys es.
Proof. intros H. now apply entries_repr_split in H as [Hk _]. Qed.

Lemma dict_keys_lookup {V : Type} (es : list (string * V)) (i : nat) k v :
  es !! i = Some (k, v) -> k ∈ dict_keys es.
Proof.
  revert i. induction es as [|[k0 v0] es IH]; intros [|i] Hi; try discriminate;
    simpl in *.
  - injection Hi as -> ->. apply list_elem_of_here.
  - apply list_elem_of_further. eauto.
Qed.

(** In a dict, assigning to the key at position [i] changes position [i]
    only. *)
Lemma dict_set_insert {V : Type} (es : list (string * V)) (i : nat) k v w :
  NoDup (dict_keys es) -> es !! i = Some (k, v) -> dict_set es k w = <[i := (k, w)]> es.
Proof.
  revert i. induction es as [|[k0 v0] es IH]; intros i Hnd Hi; [discriminate|].
  apply NoDup_cons in Hnd as [Hk0 Hnd]. destruct i as [|i]; simpl in *.
  - injection Hi as -> ->. now rewrite String.eqb_refl.
  - destruct (String.eqb_spec k0 k) as [->|Hne].
    + exfalso. apply Hk0. eapply dict_keys_lookup; eauto.
    + f_equal. now apply IH.
Qed.

Lemma dict_set_keys {V : Type} (es : list (string * V)) (i : nat) k v w :
  NoDup (dict_keys es) -> es !! i = Some (k, v) ->
  dict_keys (dict_set es k w) = dict_keys es.
Proof.
  intros Hnd Hi. apply dict_keys_set. apply list_elem_of_In.
  eapply dict_keys_lookup; eauto.
Qed.

Lemma rich_text_loop_step database n i (σ : store) safe swl entries field_alias x :
  σ !! safe = Some (ODict entries) ->
  entries !! i = Some (field_alias, x) ->
  rich_text_loop database (S n) i σ safe swl
  = match leaf_field_name σ x with
    | Raise e => (σ, Raise e)
    | Return None => rich_text_loop database n (S i) σ safe swl
    | Return (Some field_name) =>
        match get_field (fields_by_name database) field_name with
        | Raise e => (σ, Raise e)
        | Return None => rich_text_loop database n (S i) σ safe swl
        | Return (Some field) =>
            if is_rich_text field then
              let '(σ1, l) :=
                alloc σ (OList [field_name; VStr Query.document_secret]) in
              let σ2 := <[safe := ODict (dict_set entries field_alias (VRef l))]> σ1 in
              rich_text_loop database n (S i) σ2 safe
                (swl ++ [(field_alias, field_name)])
            else rich_text_loop database n (S i) σ safe swl
        end
    end.
Proof. intros Hsafe Hi. simpl. now rewrite Hsafe, Hi. Qed.

(** The loop on the store follows the loop on values.  The copy is the
    dict at [safe]; its members are read in the store without [safe],
    which only grows, so that assigning into the copy changes the reading
    of no member and of nothing the caller holds. *)
Lemma rich_text_loop_sim database safe items :
  forall i (σ : store) entries psafe wl swl,
    NoDup (dict_keys entries) ->
    σ !! safe = Some (ODict entries) ->
    entries_repr (delete safe σ) psafe entries ->
    entries_repr (delete safe σ) items (drop i entries) ->
    worklist_repr (delete safe σ) wl swl ->
    exists σ' r,
      rich_text_loop database (length items) i σ safe swl = (σ', r)
      /\ delete safe σ ⊆ delete safe σ'
      /\ match Query.rich_text_loop database items wl psafe with
         | Raise e => r = Raise e
         | Return (wl', psafe') =>
             exists swl' entries',
               r = Return swl'
               /\ worklist_repr (delete safe σ') wl' swl'
               /\ σ' !! safe = Some (ODict entries')
               /\ entries_repr (delete safe σ') psafe' entries'
         end.
Proof.
  induction items as [|[a spec] rest IH]; intros i σ entries psafe wl swl Hnd Hsafe Hcur Hrest Hwl.
  - exists σ, (Return swl). split; [reflexivity|]. split; [reflexivity|].
    simpl. exists swl, entries. auto.
  - inversion Hrest as [|? [a' x] ? tl [Ha Hx] Htl Hdrop1 Hdrop2]; simpl in Ha, Hx; subst a'.
    assert (Hi : entries !! i = Some (a, x)).
    { rewrite <- (Nat.add_0_r i), <- lookup_drop, <- Hdrop2. reflexivity. }
    assert (Hdrop : drop (S i) entries = tl).
    { rewrite (drop_S _ _ _ Hi) in Hdrop2. congruence. }
    subst tl.
    assert (Hview : delete safe σ ⊆ σ) by apply delete_subseteq.
    change (length ((a, spec) :: rest)) with (S (length rest)).
    rewrite (rich_text_loop_step _ _ _ _ _ _ _ _ _ Hsafe Hi), rich_text_loop_cons.
    pose proof (leaf_field_name_sim _ _ _ _ Hview Hx) as Hleaf.
    destruct (Query.leaf_field_name spec) as [[key|]|e]; cbn [bind].
    3:{ rewrite Hleaf. eexists _, _. split; [reflexivity|]. split; reflexivity. }
    2:{ rewrite Hleaf. now apply (IH (S i) σ entries). }
    destruct Hleaf as (kx & -> & Hkx).
    rewrite (get_field_sim _ _ _ _ Hkx).
    destruct (map_get (fields_by_name database) key) as [[field|]|e];
      cbn [bind].
    3:{ eexists _, _. split; [reflexivity|]. split; reflexivity. }
    2:{ now apply (IH (S i) σ entries). }
    destruct (is_rich_text field); [|now apply (IH (S i) σ entries)].
    destruct (alloc σ (OList [kx; VStr Query.document_secret])) as [σ1 fresh_l] eqn:Halloc.
    apply alloc_spec in Halloc as [Hfresh ->].
    assert (Hne : fresh_l <> safe) by congruence.
    set (σ2 := <[safe := ODict (dict_set entries a (VRef fresh_l))]>
                 (<[fresh_l := OList [kx; VStr Query.document_secret]]> σ)).
    assert (Hdel : delete safe σ2
                   = <[fresh_l := OList [kx; VStr Query.document_secret]]> (delete safe σ)).
    { unfold σ2. rewrite delete_insert_eq. now rewrite delete_insert_ne. }
    assert (Hsub : delete safe σ ⊆ delete safe σ2).
    { rewrite Hdel. apply insert_subseteq. rewrite lookup_delete_ne by auto. exact Hfresh. }
    assert (Hnew : repr (delete safe σ2)
                     (PList [key; PStr Query.document_secret]) (VRef fresh_l)).
    { apply repr_list. exists fresh_l, [kx; VStr Query.document_secret].
      split; [reflexivity|]. split; [rewrite Hdel; apply lookup_insert_eq|].
      constructor; [eapply repr_weaken; eauto|]. constructor; [reflexivity|constructor]. }
    destruct (IH (S i) σ2 (dict_set entries a (VRef fresh_l))
                (dict_set psafe a (PList [key; PStr Query.document_secret]))
                (wl ++ [{| Query.rt_alias := a; Query.rt_name := key |}])%list
                (swl ++ [(a, kx)])%list)
      as (σ' & r & Hrun & Hsub' & Hres).
    + now rewrite (dict_set_keys _ _ _ _ _ Hnd Hi).
    + apply lookup_insert_eq.
    + apply entries_repr_set; [|exact Hnew]. eapply entries_repr_weaken; eauto.
    + rewrite (dict_set_insert _ _ _ _ _ Hnd Hi), drop_insert_lt by lia.
      eapply entries_repr_weaken; eauto.
    + apply Forall2_app.
      * clear -Hwl Hsub. induction Hwl as [|? ? ? ? [? ?] _ IHwl]; constructor;
          eauto using repr_weaken.
      * constructor; [|constructor]. split; [reflexivity|]. eapply repr_weaken; eauto.
    + exists σ', r. split; [exact Hrun|]. split; [now transitivity (delete safe σ2)|].
      exact Hres.
Qed.

Lemma worklist_repr_weaken (σ σ' : store) wl swl :
  σ ⊆ σ' -> worklist_repr σ wl swl -> worklist_repr σ' wl swl.
Proof.
  intros Hsub Hwl. induction Hwl as [|? ? ? ? [? ?] _ IH]; constructor;
    eauto using repr_weaken.
Qed.

(** C10. [get_rich_text_fields] does not change the select clause it is
    given.  In any store where the caller's reference reads as the
    mapping [sel], the call (with fuel for the depth of [sel]) returns in
    a store that extends the caller's: every object of the caller is as it
    was, and the caller's reference still reads as [sel].  What the call
    returns is what [Query.get_rich_text_fields] computes on values, and
    the select clause it returns, substitutions included, is another
    object than the caller's. *)
Theorem get_rich_text_fields_frame database (σ : store) q_select sel fuel :
  repr σ (PDict sel) q_select ->
  dict_ok sel ->
  (depth (PDict sel) <= fuel)%nat ->
  exists σ' r,
    get_rich_text_fields fuel σ q_select database = Some (σ', r)
    /\ σ ⊆ σ'
    /\ repr σ' (PDict sel) q_select
    /\ match Query.get_rich_text_fields sel database with
       | Raise e => r = Raise e
       | Return (wl, sel') =>
           exists rich_text_fields safe_q_select,
             r = Return (rich_text_fields, safe_q_select)
             /\ safe_q_select <> q_select
             /\ worklist_repr σ' wl rich_text_fields
             /\ repr σ' (PDict sel') safe_q_select
       end.
Proof.
  intros Hq Hok Hfuel.
  destruct (deepcopy_dict fuel sel Hfuel σ q_select Hq)
    as (σ1 & safe & entries & Hcopy & Hsub1 & Hfresh & Hentries).
  set (σa := <[safe := ODict entries]> σ1) in *.
  assert (Hdel : delete safe σa = σ1).
  { unfold σa. rewrite delete_insert_eq. now apply delete_id. }
  assert (Hsafe : σa !! safe = Some (ODict entries)) by apply lookup_insert_eq.
  destruct (rich_text_loop_sim database safe sel 0 σa entries sel [] [])
    as (σ' & r & Hrun & Hsub' & Hres).
  - rewrite <- (entries_repr_keys _ _ _ Hentries). exact Hok.
  - exact Hsafe.
  - now rewrite Hdel.
  - now rewrite Hdel.
  - constructor.
  - assert (Hsub : σ ⊆ σ').
    { transitivity σ1; [exact Hsub1|]. rewrite <- Hdel.
      transitivity (delete safe σ'); [exact Hsub'|apply delete_subseteq]. }
    unfold get_rich_text_fields. rewrite Hcopy, Hsafe.
    rewrite <- (Forall2_length _ _ _ Hentries), Hrun.
    eexists _, _. split; [reflexivity|]. split; [exact Hsub|].
    split; [eapply repr_weaken; eauto|].
    unfold Query.get_rich_text_fields.
    destruct (Query.rich_text_loop database sel [] sel) as [[wl' sel']|e];
      [|now rewrite Hres].
    destruct Hres as (swl' & entries' & -> & Hwl' & Hsafe' & Hentries').
    exists swl', (VRef safe). split; [reflexivity|]. split.
    + apply repr_dict in Hq as (l & es & -> & Hl & _). intros [= ->].
      apply (lookup_weaken _ _ _ _ Hl) in Hsub1. congruence.
    + split; [eapply worklist_repr_weaken; [apply delete_subseteq|exact Hwl']|].
      apply repr_dict. exists safe, entries'. split; [reflexivity|].
      split; [exact Hsafe'|]. eapply entries_repr_weaken; [apply delete_subseteq|eauto].
Qed.

Lemma get_rich_text_fields_frame_witness :
  repr name_store (PDict Scenario.name_select) (VRef 0%nat)
  /\ dict_ok Scenario.name_select
  /\ (depth (PDict Scenario.name_select) <= 1)%nat
  /\ exists σ' r,
       get_rich_text_fields 1 name_store (VRef 0%nat) Scenario.sales_database
       = Some (σ', r)
       /\ name_store ⊆ σ'
       /\ repr σ' (PDict Scenario.name_select) (VRef 0%nat)
       /\ match Query.get_rich_text_fields Scenario.name_select
                  Scenario.sales_database with
          | Raise e => r = Raise e
          | Return (wl, sel') =>
              exists rich_text_fields safe_q_select,
                r = Return (rich_text_fields, safe_q_select)
                /\ safe_q_select <> VRef 0%nat
                /\ worklist_repr σ' wl rich_text_fields
                /\ repr σ' (PDict sel') safe_q_select
          end.
Proof.
  assert (Hq : repr name_store (PDict Scenario.name_select) (VRef 0%nat)).
  { exists 0%nat, [("Name", VStr "Sales/name")]. split; [reflexivity|].
    split; [apply lookup_singleton_eq|]. repeat split. }
  assert (Hfuel : (depth (PDict Scenario.name_select) <= 1)%nat) by (simpl; lia).
  split; [exact Hq|]. split; [exact name_select_ok|]. split; [exact Hfuel|].
  exact (get_rich_text_fields_frame Scenario.sales_database name_store (VRef 0%nat)
           Scenario.name_select 1 Hq name_select_ok Hfuel).
Defined.

(** The first scenario in the store: after the call the caller's dict at
    location 0 is as it was, and the substitution is in the copy at
    location 1. *)
Example get_rich_text_fields_in_store :
  exists σ',
    get_rich_text_fields 1 name_store (VRef 0%nat) Scenario.sales_database
    = Some (σ', Return ([("Name", VStr "Sales/name")], VRef 1%nat))
    /\ σ' !! 0%nat = Some (ODict [("Name", VStr "Sales/name")])
    /\ σ' !! 1%nat = Some (ODict [("Name", VRef 2%nat)])
    /\ σ' !! 2%nat
       = Some (OList [VStr "Sales/name"; VStr "Collaboration~Documents/secret"]).
Proof.
  eexists. split; [vm_compute; reflexivity|].
  repeat split; vm_compute; reflexivity.
Qed.

End StoreFacts.

(** * Further properties *)

(** ** The order-by transform, on any value *)

Section OrderByFacts.

Import Query.

Lemma order_pairs_inj (l l' : dict) :
  map (fun '(field, q_order) => PTuple [PList [PStr field]; q_order]) l
  = map (fun '(field, q_order) => PTuple [PList [PStr field]; q_order]) l' ->
  l = l'.
Proof.
  revert l'. induction l as [|[k1 v1] l IH]; intros [|[k2 v2] l']; simpl;
    try discriminate; try reflexivity.
  intros H. injection H as -> -> H. f_equal. now apply IH.
Qed.

(** X1. The order-by transform loses nothing: two mappings with the same
    result are the same mapping, entries and order. *)
Theorem parse_q_order_by_injective (q1 q2 : dict) :
  parse_q_order_by (PDict q1) = parse_q_order_by (PDict q2) -> q1 = q2.
Proof.
  destruct q1 as [|e1 r1], q2 as [|e2 r2]; try reflexivity; try discriminate.
  unfold parse_q_order_by. cbn [truthy length Nat.eqb negb].
  intros H. apply order_pairs_inj. congruence.
Qed.

(** X2. The outcomes of [parse_q_order_by] on any value: it returns
    [None] exactly on a falsy value (an omitted ordering, an empty
    mapping, but also 0 or an empty string), it raises exactly on a truthy
    value that is not a mapping, and then [AttributeError], and any other
    result comes from a mapping that has entries. *)
Theorem parse_q_order_by_outcomes (q_order_by : pyval) :
  (parse_q_order_by q_order_by = Return PNone <-> truthy q_order_by = false)
  /\ (parse_q_order_by q_order_by = Raise AttributeError
      <-> truthy q_order_by = true /\ forall entries, q_order_by <> PDict entries)
  /\ (forall e, parse_q_order_by q_order_by = Raise e -> e = AttributeError)
  /\ (forall v, parse_q_order_by q_order_by = Return v -> v <> PNone ->
                exists entries, q_order_by = PDict entries /\ entries <> []).
Proof.
  unfold parse_q_order_by.
  destruct (truthy q_order_by) eqn:Ht; cbn [negb].
  - destruct q_order_by; repeat split; try discriminate; try congruence;
      try (intros [_ H]; exfalso; eapply H; reflexivity);
      try (intros; discriminate).
    all: try (intros e [= <-]; reflexivity).
    intros v [= <-] _. exists entries. split; [reflexivity|].
    intros ->. discriminate.
  - repeat split; try discriminate; try congruence;
      try (intros [H _]; discriminate); try (intros v [= <-] H; congruence).
Qed.

Lemma parse_q_order_by_injective_witness :
  parse_q_order_by (PDict [("a", PStr "q/asc"); ("b", PStr "q/desc")])
  = parse_q_order_by (PDict [("a", PStr "q/asc"); ("b", PStr "q/desc")])
  /\ [("a", PStr "q/asc"); ("b", PStr "q/desc")]
     = [("a", PStr "q/asc"); ("b", PStr "q/desc")].
Proof.
  split; [reflexivity|].
  apply (parse_q_order_by_injective [("a", PStr "q/asc"); ("b", PStr "q/desc")]
           [("a", PStr "q/asc"); ("b", PStr "q/desc")]).
  reflexivity.
Defined.

End OrderByFacts.

(** ** The detection step, entry by entry *)

Section DetectionFacts.

Import Query Detection.

Variable database : Database.

(** One turn of a loop that returns, by what the entry's [substitution]
    is. *)
Lemma rich_text_loop_turn field_alias spec rest wl safe r :
  rich_text_loop database ((field_alias, spec) :: rest) wl safe = Return r ->
  match substitution database spec with
  | Some field_name =>
      rich_text_loop database rest
        (wl ++ [{| rt_alias := field_alias; rt_name := field_name |}])
        (dict_set safe field_alias (PList [field_name; PStr document_secret]))
  | None => rich_text_loop database rest wl safe
  end = Return r.
Proof.
  rewrite rich_text_loop_cons. unfold substitution.
  destruct (leaf_field_name spec) as [[key|]|e]; cbn [bind];
    [|auto|discriminate].
  destruct (map_get (fields_by_name database) key) as [[field|]|e]; cbn [bind];
    [|auto|discriminate].
  destruct (is_rich_text field); auto.
Qed.

Lemma dict_set_app_fresh {V : Type} (pre : list (string * V)) a v rest w :
  ~ In a (dict_keys pre) ->
  dict_set (pre ++ (a, v) :: rest) a w = (pre ++ (a, w) :: rest)%list.
Proof.
  induction pre as [|[k0 v0] pre IH]; simpl; intros Hnot.
  - now rewrite String.eqb_refl.
  - destruct (String.eqb_spec k0 a) as [->|Hne]; [tauto|]. f_equal. apply IH. tauto.
Qed.

Lemma rich_text_loop_entrywise items :
  forall pre wl wl' safe',
    NoDup (dict_keys (pre ++ items)) ->
    rich_text_loop database items wl (pre ++ items) = Return (wl', safe') ->
    wl' = (wl ++ omap (recorded database) items)%list
    /\ safe' = (pre ++ map (rewritten database) items)%list.
Proof.
  induction items as [|[a spec] rest IH]; intros pre wl wl' safe' Hnd Hrun.
  - injection Hrun as <- <-. simpl. now rewrite !app_nil_r.
  - apply rich_text_loop_turn in Hrun.
    assert (Ha : ~ In a (dict_keys pre)).
    { unfold dict_keys in Hnd. rewrite map_app in Hnd. simpl in Hnd.
      apply NoDup_app in Hnd as (_ & Hdisj & _). intros Hin.
      apply (Hdisj a); [now apply list_elem_of_In|apply list_elem_of_here]. }
    assert (Hnd' : forall v, NoDup (dict_keys ((pre ++ [(a, v)]) ++ rest))).
    { intros v. unfold dict_keys in *. rewrite <- app_assoc. simpl.
      rewrite map_app in *. exact Hnd. }
    unfold rewritten, recorded. simpl.
    destruct (substitution database spec) as [key|].
    + rewrite dict_set_app_fresh in Hrun by exact Ha.
      change (pre ++ (a, PList [key; PStr document_secret]) :: rest)%list
        with (pre ++ [(a, PList [key; PStr document_secret])] ++ rest)%list in Hrun.
      rewrite app_assoc in Hrun.
      apply IH in Hrun as [-> ->]; [|apply Hnd'].
      now rewrite <- !app_assoc.
    + change (pre ++ (a, spec) :: rest)%list
        with (pre ++ [(a, spec)] ++ rest)%list in Hrun.
      rewrite app_assoc in Hrun.
      apply IH in Hrun as [-> ->]; [|apply Hnd'].
      now rewrite <- !app_assoc.
Qed.

(** X3. On a select clause with distinct aliases, what the loop of
    [get_rich_text_fields] returns is the clause rewritten entry by entry,
    every entry at its place under its alias, and the worklist of the
    entries that were rewritten, in the order of the clause. *)
Theorem get_rich_text_fields_entrywise q_select rich_text_fields safe_q_select :
  dict_ok q_select ->
  get_rich_text_fields q_select database
  = Return (rich_text_fields, safe_q_select) ->
  safe_q_select = map (rewritten database) q_select
  /\ rich_text_fields = omap (recorded database) q_select.
Proof.
  intros Hok Hrun.
  destruct (rich_text_loop_entrywise q_select [] [] _ _ Hok Hrun) as [-> ->].
  auto.
Qed.


Lemma substitution_name spec key :
  substitution database spec = Some key ->
  exists name,
    key = PStr name /\ resolves_to spec name /\ flagged_rich_text database name.
Proof.
  unfold substitution.
  destruct (leaf_field_name spec) as [[k|]|e] eqn:Hleaf; try discriminate.
  destruct (map_get (fields_by_name database) k) as [[field|]|e] eqn:Hget;
    try discriminate.
  destruct (is_rich_text field) eqn:Hrich; [|discriminate]. intros [= <-].
  apply map_get_found in Hget as (name & -> & Hfield).
  destruct (leaf_field_name_inv _ _ Hleaf) as [(n & [= <-] & Hres)|Hno].
  - exists name. split; [reflexivity|]. split; [exact Hres|]. now exists field.
  - now destruct (Hno name).
Qed.

Lemma substitution_resolved spec name :
  resolves_to spec name -> flagged_rich_text database name ->
  substitution database spec = Some (PStr name).
Proof.
  intros Hres (field & Hfield & Hrich). unfold substitution.
  rewrite (leaf_resolves _ _ Hres). unfold map_get. cbn [hashable].
  now rewrite Hfield, Hrich.
Qed.

Lemma substitution_rewritten entry :
  substitution database (snd (rewritten database entry))
  = substitution database (snd entry).
Proof.
  unfold rewritten.
  destruct (substitution database (snd entry)) as [key|] eqn:Hsub; [|exact Hsub].
  destruct (substitution_name _ _ Hsub) as (name & -> & _ & Hrich).
  apply substitution_resolved; [|exact Hrich]. right. now eexists.
Qed.

Lemma well_shaped_false_raises field_alias spec rest wl safe :
  well_shaped spec = false ->
  exists e,
    (e = IndexError \/ e = TypeError)
    /\ rich_text_loop database ((field_alias, spec) :: rest) wl safe = Raise e.
Proof.
  rewrite rich_text_loop_cons.
  destruct spec as [| | | |[|first items]| |]; try discriminate; simpl.
  - intros _. exists IndexError. auto.
  - intros Hhash. exists TypeError. split; [auto|].
    unfold map_get. now rewrite Hhash.
Qed.

Lemma rich_text_loop_outcome items :
  forall wl safe,
    match rich_text_loop database items wl safe with
    | Return _ => forallb well_shaped (dict_values items) = true
    | Raise e =>
        forallb well_shaped (dict_values items) = false
        /\ (e = IndexError \/ e = TypeError)
    end.
Proof.
  induction items as [|[a spec] rest IH]; intros wl safe; [reflexivity|].
  simpl forallb. destruct (well_shaped spec) eqn:Hshape.
  - rewrite rich_text_loop_cons.
    assert (Hleaf : leaf_field_name spec = Return None
                    \/ exists key, leaf_field_name spec = Return (Some key)
                                   /\ hashable key = true).
    { destruct spec as [| | |s|[|first items]| |]; simpl in *;
        try discriminate; eauto. }
    destruct Hleaf as [-> | [key [-> Hkey]]]; cbn [bind andb]; [apply IH|].
    unfold map_get. rewrite Hkey. cbn [bind].
    destruct (match key with PStr s => fields_by_name database !! s | _ => None end)
      as [field|]; [|apply IH].
    destruct (is_rich_text field); apply IH.
  - destruct (well_shaped_false_raises a spec rest wl safe Hshape) as (e & He & ->).
    auto.
Qed.

(** X4. [get_rich_text_fields] returns exactly when no field spec of the
    clause is an empty list or a list whose first segment is unhashable;
    otherwise it raises [IndexError] or [TypeError], and nothing else. *)
Theorem get_rich_text_fields_outcome q_select :
  ((exists r, get_rich_text_fields q_select database = Return r)
   <-> forallb well_shaped (dict_values q_select) = true)
  /\ (forall e, get_rich_text_fields q_select database = Raise e ->
                e = IndexError \/ e = TypeError).
Proof.
  unfold get_rich_text_fields.
  pose proof (rich_text_loop_outcome q_select [] q_select) as H.
  destruct (rich_text_loop database q_select [] q_select) as [r|e].
  - split; [split; eauto|discriminate].
  - destruct H as [Hshape He]. split.
    + split; [intros [r Hr]; discriminate|congruence].
    + now intros e' [= <-].
Qed.

Lemma rewritten_keys (q_select : dict) :
  dict_keys (map (rewritten database) q_select) = dict_keys q_select.
Proof.
  unfold dict_keys. rewrite map_map. apply map_ext. intros [a spec].
  unfold rewritten. now destruct (substitution database _).
Qed.

Lemma rewritten_well_shaped (q_select : dict) :
  forallb well_shaped (dict_values q_select) = true ->
  forallb well_shaped (dict_values (map (rewritten database) q_select)) = true.
Proof.
  induction q_select as [|[a spec] rest IH]; [reflexivity|]. simpl.
  intros [Hspec Hrest]%andb_prop. rewrite (IH Hrest), andb_true_r.
  unfold rewritten. simpl.
  destruct (substitution database spec) as [key|] eqn:Hsub; [|exact Hspec].
  now destruct (substitution_name _ _ Hsub) as (name & -> & _).
Qed.

Lemma recorded_rewritten entry :
  recorded database (rewritten database entry) = recorded database entry.
Proof.
  unfold recorded. rewrite substitution_rewritten.
  unfold rewritten. now destruct (substitution database (snd entry)).
Qed.

Lemma rewritten_rewritten entry :
  rewritten database (rewritten database entry) = rewritten database entry.
Proof.
  unfold rewritten at 1. rewrite substitution_rewritten.
  unfold rewritten. destruct (substitution database (snd entry)); [reflexivity|].
  now destruct entry.
Qed.

(** X5. The detection step is idempotent: given the select clause it
    returned, it returns that clause again, with the same worklist. *)
Theorem get_rich_text_fields_idempotent q_select rich_text_fields safe_q_select :
  dict_ok q_select ->
  get_rich_text_fields q_select database
  = Return (rich_text_fields, safe_q_select) ->
  get_rich_text_fields safe_q_select database
  = Return (rich_text_fields, safe_q_select).
Proof.
  intros Hok Hrun.
  destruct (rich_text_loop_entrywise q_select [] [] _ _ Hok Hrun) as [Hwl Hsafe].
  simpl in Hwl, Hsafe. subst rich_text_fields safe_q_select.
  assert (Hshape : forallb well_shaped (dict_values q_select) = true).
  { pose proof (rich_text_loop_outcome q_select [] q_select) as H.
    unfold get_rich_text_fields in Hrun. now rewrite Hrun in H. }
  destruct (rich_text_loop_returns database (map (rewritten database) q_select)
              [] (map (rewritten database) q_select)
              (rewritten_well_shaped _ Hshape)) as [[wl safe] Hagain].
  assert (Hok' : dict_ok (map (rewritten database) q_select)).
  { unfold dict_ok. now rewrite rewritten_keys. }
  unfold get_rich_text_fields. rewrite Hagain.
  destruct (rich_text_loop_entrywise _ [] [] _ _ Hok' Hagain) as [-> ->].
  simpl. f_equal. f_equal.
  - apply list_omap_ext. clear.
    induction q_select as [|entry rest IH]; constructor; [|exact IH].
    apply recorded_rewritten.
  - rewrite map_map. apply map_ext. apply rewritten_rewritten.
Qed.

(** X6. The worklist holds nothing else than the substituted aliases:
    each of its elements is an alias of the given clause whose field spec
    resolves to a field flagged rich-text, with the name of that field,
    and the returned clause has the handle path at that alias. *)
Theorem get_rich_text_fields_worklist_sound q_select rich_text_fields safe_q_select :
  dict_ok q_select ->
  get_rich_text_fields q_select database
  = Return (rich_text_fields, safe_q_select) ->
  forall field,
    In field rich_text_fields ->
    exists spec name,
      rt_name field = PStr name
      /\ dict_get q_select (rt_alias field) = Some spec
      /\ resolves_to spec name
      /\ flagged_rich_text database name
      /\ dict_get safe_q_select (rt_alias field)
         = Some (PList [PStr name; PStr document_secret]).
Proof.
  intros Hok Hrun field Hin.
  destruct (rich_text_loop_entrywise q_select [] [] _ _ Hok Hrun) as [Hwl _].
  simpl in Hwl. subst rich_text_fields.
  apply list_elem_of_In, list_elem_of_omap in Hin as ([a spec] & Hentry & Hrec).
  apply list_elem_of_In in Hentry.
  unfold recorded in Hrec. simpl in Hrec.
  destruct (substitution database spec) as [key|] eqn:Hsub; [|discriminate].
  injection Hrec as <-. simpl.
  destruct (substitution_name _ _ Hsub) as (name & -> & Hres & Hrich).
  exists spec, name. split; [reflexivity|].
  split; [now apply dict_get_In_nodup|]. split; [exact Hres|]. split; [exact Hrich|].
  destruct (rich_text_loop_spec database _ _ _ _ _ Hok Hrun) as (_ & _ & H3).
  destruct (H3 _ _ Hentry) as [Hsubst _]. now apply Hsubst.
Qed.

(** X7. Whenever [get_rich_text_fields] returns, an entry whose field
    spec resolves to no field flagged rich-text (a sub-query, a name the
    database does not have, a field that is not rich-text, a value that is
    neither a string nor a list) has in the returned clause the field spec
    it had. *)
Theorem get_rich_text_fields_leaves_others q_select rich_text_fields safe_q_select :
  dict_ok q_select ->
  get_rich_text_fields q_select database
  = Return (rich_text_fields, safe_q_select) ->
  forall field_alias spec,
    dict_get q_select field_alias = Some spec ->
    (forall name, resolves_to spec name -> ~ flagged_rich_text database name) ->
    dict_get safe_q_select field_alias = Some spec
    /\ forall field, In field rich_text_fields -> rt_alias field <> field_alias.
Proof.
  intros Hok Hrun field_alias spec Hget Hnot.
  destruct (rich_text_loop_spec database _ _ _ _ _ Hok Hrun) as (_ & _ & H3).
  destruct (H3 _ _ (dict_get_In _ _ _ Hget)) as [_ Hkeep]. split.
  - now rewrite (Hkeep Hnot).
  - intros field Hin Halias.
    destruct (rich_text_loop_entrywise q_select [] [] _ _ Hok Hrun) as [Hwl _].
    simpl in Hwl. subst rich_text_fields.
    apply list_elem_of_In, list_elem_of_omap in Hin as ([a spec'] & Hentry & Hrec).
    apply list_elem_of_In in Hentry.
    unfold recorded in Hrec. simpl in Hrec.
    destruct (substitution database spec') as [key|] eqn:Hsub; [|discriminate].
    injection Hrec as <-. simpl in Halias. subst a.
    rewrite (dict_get_In_nodup _ _ _ Hok Hentry) in Hget. injection Hget as ->.
    destruct (substitution_name _ _ Hsub) as (name & _ & Hres & Hrich).
    exact (Hnot name Hres Hrich).
Qed.

End DetectionFacts.

(** ** The outcomes of [handle_query] *)

Section HandleQueryFacts.

Import Query Detection.

Variable str_command_result : CommandResult -> string.
Variable fibery_client : FiberyClient.

(** After the document is built, [handle_query] raises nothing. *)
Lemma handle_query_after_build arguments rich_text_fields query_document :
  build_query fibery_client arguments = Return (rich_text_fields, query_document) ->
  handle_query str_command_result fibery_client arguments
  = Return
      [text_content
         match query fibery_client (PDict query_document)
                 (dict_get_default arguments "q_params" PNone) with
         | Failed detail => str_command_result (Failed detail)
         | Succeeded entities =>
             match resolve_entities fibery_client entities rich_text_fields with
             | inl diagnostic => diagnostic
             | inr entities' => str_command_result (Succeeded entities')
             end
         end].
Proof.
  intros Hbuild. unfold handle_query. rewrite Hbuild. cbn [bind].
  destruct (query fibery_client _ _) as [entities|detail]; [|reflexivity].
  now destruct (resolve_entities fibery_client entities rich_text_fields).
Qed.

Lemma handle_query_raise arguments e :
  build_query fibery_client arguments = Raise e ->
  handle_query str_command_result fibery_client arguments = Raise e.
Proof. intros Hbuild. unfold handle_query. now rewrite Hbuild. Qed.

(** X12. Whenever [handle_query] returns, what it returns is exactly one
    content item, of type text: the rendered result, or the executor's
    error, or the diagnostic, never several items. *)
Theorem handle_query_single_text arguments output :
  handle_query str_command_result fibery_client arguments = Return output ->
  exists s, output = [{| type := "text"; text := s |}].
Proof.
  destruct (build_query fibery_client arguments) as [[wl doc]|e] eqn:Hbuild.
  - rewrite (handle_query_after_build _ _ _ Hbuild). intros [= <-]. now eexists.
  - now rewrite (handle_query_raise _ _ Hbuild).
Qed.

(** X9. A call without the source or without the select clause, or whose
    source names no database of the schema, raises [KeyError]. *)
Theorem handle_query_key_error arguments :
  dict_get arguments "q_from" = None
  \/ dict_get arguments "q_select" = None
  \/ (exists name,
        dict_get arguments "q_from" = Some (PStr name)
        /\ databases_by_name (get_schema fibery_client) !! name = None) ->
  handle_query str_command_result fibery_client arguments = Raise KeyError.
Proof.
  intros H. apply handle_query_raise. unfold build_query, dict_subscript.
  destruct H as [-> | [Hsel | (name & -> & Hdb)]]; [reflexivity| |].
  - rewrite Hsel. now destruct (dict_get arguments "q_from").
  - destruct (dict_get arguments "q_select"); [|reflexivity]. cbn [bind].
    unfold map_subscript, map_get. cbn [hashable bind]. now rewrite Hdb.
Qed.

Lemma parse_q_order_by_returns q_order_by :
  (exists v, parse_q_order_by q_order_by = Return v)
  <-> truthy q_order_by = false \/ exists entries, q_order_by = PDict entries.
Proof.
  unfold parse_q_order_by. split.
  - intros [v H]. destruct (truthy q_order_by); [|now left].
    right. destruct q_order_by; try discriminate. now eexists.
  - intros [-> | [entries ->]]; [now eexists|].
    destruct (negb (truthy (PDict entries))); now eexists.
Qed.

Lemma map_subscript_returns {A : Type} (m : gmap string A) key a :
  map_subscript m key = Return a <-> exists name, key = PStr name /\ m !! name = Some a.
Proof.
  unfold map_subscript, map_get. split.
  - destruct (hashable key); [|discriminate]. cbn [bind].
    destruct key; try discriminate.
    destruct (m !! s) eqn:E; [|discriminate]. intros [= ->]. eauto.
  - intros (name & -> & Hm). cbn [hashable bind]. now rewrite Hm.
Qed.

(** X8. [handle_query] returns (rather than raises) exactly when the
    source is a string naming a database of the schema, the select clause
    is a mapping none of whose field specs is an empty list or a list with
    an unhashable first segment, and the ordering is falsy or a mapping. *)
Theorem handle_query_returns_iff arguments :
  (exists output,
     handle_query str_command_result fibery_client arguments = Return output)
  <-> exists name database q_select,
        dict_get arguments "q_from" = Some (PStr name)
        /\ databases_by_name (get_schema fibery_client) !! name = Some database
        /\ dict_get arguments "q_select" = Some (PDict q_select)
        /\ forallb well_shaped (dict_values q_select) = true
        /\ (truthy (dict_get_default arguments "q_order_by" PNone) = false
            \/ exists entries,
                 dict_get arguments "q_order_by" = Some (PDict entries)).
Proof.
  split.
  - intros [output Hrun].
    destruct (build_query fibery_client arguments) as [[wl doc]|e] eqn:Hbuild;
      [|now rewrite (handle_query_raise _ _ Hbuild) in Hrun].
    apply build_query_inv in Hbuild
      as (q_from & q_select & database & safe & order_by
          & Hfrom & Hsel & Hdb & Hrtf & Hob & _).
    apply map_subscript_returns in Hdb as (name & -> & Hdb).
    exists name, database, q_select. repeat (split; [assumption|]). split.
    + pose proof (rich_text_loop_outcome database q_select [] q_select) as H.
      unfold get_rich_text_fields in Hrtf. now rewrite Hrtf in H.
    + destruct (proj1 (parse_q_order_by_returns _) (ex_intro _ _ Hob))
        as [Hfalsy | [entries Hdict]]; [now left|right].
      exists entries. unfold dict_get_default in Hdict.
      destruct (dict_get arguments "q_order_by"); [congruence|discriminate].
  - intros (name & database & q_select & Hfrom & Hdb & Hsel & Hshape & Hob).
    assert (Hbuild : exists r, build_query fibery_client arguments = Return r).
    { unfold build_query, dict_subscript. rewrite Hfrom, Hsel. cbn [bind items].
      rewrite (proj2 (map_subscript_returns _ _ _) (ex_intro _ name (conj eq_refl Hdb))).
      cbn [bind].
      destruct (get_rich_text_fields_returns database q_select Hshape) as [[wl safe] ->].
      cbn [bind].
      destruct (proj2 (parse_q_order_by_returns
                         (dict_get_default arguments "q_order_by" PNone)))
        as [v ->]; [|now eexists].
      destruct Hob as [Hob | [entries Hob]]; [now left|right].
      exists entries. unfold dict_get_default. now rewrite Hob. }
    destruct Hbuild as [[wl doc] Hbuild].
    rewrite (handle_query_after_build _ _ _ Hbuild). now eexists.
Qed.

(** The inner loop on an entity that has every handle. *)
Lemma resolve_entity_resolved rich_text_fields :
  forall entity,
    NoDup (map rt_alias rich_text_fields) ->
    (forall f, In f rich_text_fields -> has_handle entity f = true) ->
    exists resolved,
      resolve_entity fibery_client entity rich_text_fields = inr resolved
      /\ dict_keys resolved = dict_keys entity
      /\ (forall f, In f rich_text_fields ->
            dict_get resolved (rt_alias f)
            = Some (PStr (get_document_content fibery_client
                            (dict_get_default entity (rt_alias f) PNone))))
      /\ (forall k, ~ In k (map rt_alias rich_text_fields) ->
            dict_get resolved k = dict_get entity k).
Proof.
  induction rich_text_fields as [|field rest IH]; intros entity Hnd Hall.
  - exists entity. repeat split; auto. intros f [].
  - simpl in Hnd. apply NoDup_cons in Hnd as [Hfield Hnd].
    rewrite list_elem_of_In in Hfield.
    pose proof (Hall field (or_introl eq_refl)) as Hsecret. unfold has_handle in Hsecret.
    cbn [resolve_entity]. rewrite Hsecret. cbn [negb].
    set (content := PStr (get_document_content fibery_client _)).
    set (entity' := dict_set entity (rt_alias field) content).
    assert (Hother : forall f, In f rest ->
               dict_get entity' (rt_alias f) = dict_get entity (rt_alias f)).
    { intros f Hf. apply dict_get_set_ne. intros Heq. apply Hfield.
      rewrite Heq. now apply in_map. }
    destruct (IH entity' Hnd) as (resolved & Hrun & Hkeys & Hset & Hframe).
    { intros f Hf. unfold has_handle, dict_get_default. rewrite (Hother f Hf).
      apply Hall. now right. }
    exists resolved. split; [exact Hrun|]. split; [|split].
    + rewrite Hkeys. apply dict_keys_set.
      unfold dict_get_default in Hsecret.
      destruct (dict_get entity (rt_alias field)) as [secret|] eqn:Hget;
        [|discriminate].
      exact (in_map fst _ _ (dict_get_In _ _ _ Hget)).
    + intros f [<- | Hf].
      * rewrite (Hframe _ Hfield). apply dict_get_set_eq.
      * rewrite (Hset f Hf). unfold dict_get_default. now rewrite (Hother f Hf).
    + intros k Hk. simpl in Hk. rewrite Hframe by tauto.
      apply dict_get_set_ne. tauto.
Qed.

Lemma resolve_entities_resolved rich_text_fields entities :
  NoDup (map rt_alias rich_text_fields) ->
  (forall e f, In e entities -> In f rich_text_fields -> has_handle e f = true) ->
  exists resolved,
    resolve_entities fibery_client entities rich_text_fields = inr resolved
    /\ Forall2
         (fun entity r =>
            dict_keys r = dict_keys entity
            /\ (forall f, In f rich_text_fields ->
                  dict_get r (rt_alias f)
                  = Some (PStr (get_document_content fibery_client
                                  (dict_get_default entity (rt_alias f) PNone))))
            /\ (forall k, ~ In k (map rt_alias rich_text_fields) ->
                  dict_get r k = dict_get entity k))
         entities resolved.
Proof.
  intros Hnd. induction entities as [|entity rest IH]; intros Hall.
  - exists []. split; [reflexivity|constructor].
  - destruct (resolve_entity_resolved rich_text_fields entity Hnd)
      as (r & Hrun & Hr); [intros f Hf; apply Hall; [now left|exact Hf]|].
    destruct IH as (rs & Hruns & Hrs);
      [intros e f He Hf; apply Hall; [now right|exact Hf]|].
    exists (r :: rs). cbn [resolve_entities]. rewrite Hrun, Hruns.
    split; [reflexivity|]. now constructor.
Qed.

(** X10. When the executor succeeds and every returned entity has a
    handle at every alias of the worklist, [handle_query] returns the
    rendering of the resolved result: entity by entity, in the same order
    and with the same keys in the same order, each worklisted alias holds
    the content fetched for the handle the entity had there, and every
    other key holds what it held. *)
Theorem handle_query_resolves_handles arguments rich_text_fields query_document
    entities :
  (forall q_select,
     dict_get arguments "q_select" = Some (PDict q_select) -> dict_ok q_select) ->
  build_query fibery_client arguments = Return (rich_text_fields, query_document) ->
  query fibery_client (PDict query_document)
    (dict_get_default arguments "q_params" PNone) = Succeeded entities ->
  (forall e f, In e entities -> In f rich_text_fields -> has_handle e f = true) ->
  exists resolved,
    handle_query str_command_result fibery_client arguments
    = Return [text_content (str_command_result (Succeeded resolved))]
    /\ Forall2
         (fun entity r =>
            dict_keys r = dict_keys entity
            /\ (forall f, In f rich_text_fields ->
                  dict_get r (rt_alias f)
                  = Some (PStr (get_document_content fibery_client
                                  (dict_get_default entity (rt_alias f) PNone))))
            /\ (forall k, ~ In k (map rt_alias rich_text_fields) ->
                  dict_get r k = dict_get entity k))
         entities resolved.
Proof.
  intros Hok Hbuild Hquery Hall.
  rewrite (handle_query_after_build _ _ _ Hbuild), Hquery.
  apply build_query_inv in Hbuild
    as (q_from & q_select & database & safe & order_by
        & _ & Hsel & _ & Hrtf & _ & _).
  pose proof (get_rich_text_fields_aliases _ _ _ _ (Hok _ Hsel) Hrtf) as Hnd.
  destruct (resolve_entities_resolved rich_text_fields entities Hnd Hall)
    as (resolved & -> & Hres).
  now exists resolved.
Qed.

(** A loop over entries none of which is rewritten changes nothing. *)
Lemma rich_text_loop_nothing database items :
  forall wl safe wl' safe',
    (forall entry, In entry items -> substitution database (snd entry) = None) ->
    rich_text_loop database items wl safe = Return (wl', safe') ->
    wl' = wl /\ safe' = safe.
Proof.
  induction items as [|[a spec] rest IH]; intros wl safe wl' safe' Hnone Hrun.
  - now injection Hrun as <- <-.
  - apply rich_text_loop_turn in Hrun.
    pose proof (Hnone (a, spec) (or_introl eq_refl)) as Hspec. simpl in Hspec.
    rewrite Hspec in Hrun.
    apply IH in Hrun; [exact Hrun|]. intros entry Hin. apply Hnone. now right.
Qed.

(** X11. When no field spec of the select clause resolves to a field the
    database flags rich-text, the worklist is empty, the document carries
    the select clause as it was given, and a successful result is rendered
    as the executor returned it, with no content fetched. *)
Theorem handle_query_without_rich_text arguments rich_text_fields query_document
    name database q_select :
  build_query fibery_client arguments = Return (rich_text_fields, query_document) ->
  dict_get arguments "q_from" = Some (PStr name) ->
  databases_by_name (get_schema fibery_client) !! name = Some database ->
  dict_get arguments "q_select" = Some (PDict q_select) ->
  (forall field_alias spec field_name,
     In (field_alias, spec) q_select -> resolves_to spec field_name ->
     ~ flagged_rich_text database field_name) ->
  rich_text_fields = []
  /\ dict_get query_document "q/select" = Some (PDict q_select)
  /\ forall entities,
       query fibery_client (PDict query_document)
         (dict_get_default arguments "q_params" PNone) = Succeeded entities ->
       handle_query str_command_result fibery_client arguments
       = Return [text_content (str_command_result (Succeeded entities))].
Proof.
  intros Hbuild Hfrom Hdb Hsel Hplain.
  pose proof (handle_query_after_build _ _ _ Hbuild) as Hrun.
  apply build_query_inv in Hbuild
    as (q_from & q_select' & database' & safe & order_by
        & Hfrom' & Hsel' & Hdb' & Hrtf & _ & Hdoc).
  rewrite Hfrom in Hfrom'. injection Hfrom' as <-.
  rewrite Hsel in Hsel'. injection Hsel' as <-.
  apply map_subscript_returns in Hdb' as (name' & [= <-] & Hdb').
  rewrite Hdb in Hdb'. injection Hdb' as <-.
  destruct (rich_text_loop_nothing database q_select [] q_select
              rich_text_fields safe) as [-> ->]; [|exact Hrtf|].
  { intros [a spec] Hin. simpl.
    destruct (substitution database spec) as [key|] eqn:Hsub; [|reflexivity].
    destruct (substitution_name _ _ _ Hsub) as (n & _ & Hres & Hrich).
    now destruct (Hplain a spec n Hin Hres Hrich). }
  split; [reflexivity|]. split.
  - subst query_document. apply dict_merge_lookups.
  - intros entities Hquery. rewrite Hrun, Hquery.
    assert (Hsame : resolve_entities fibery_client entities [] = inr entities).
    { clear. induction entities as [|e rest IH]; [reflexivity|].
      cbn [resolve_entities resolve_entity]. now rewrite IH. }
    now rewrite Hsame.
Qed.

End HandleQueryFacts.

(** ** The search scanner, step by step *)

Section SearchFacts.

Import Search.

Lemma split_from_nonempty sep current s : split_from sep current s <> [].
Proof.
  revert current. induction s as [|c s IH]; intros current; simpl; [discriminate|].
  destruct (c =? sep)%char; [discriminate|apply IH].
Qed.

(** Joining the pieces gives the string back. *)
Lemma join_split_from sep current s :
  String.concat (String sep "") (split_from sep current s) = current +:+ s.
Proof.
  revert current. induction s as [|c s IH]; intros current; simpl.
  - now rewrite append_nil_r.
  - destruct (Ascii.eqb_spec c sep) as [->|Hne].
    + pose proof (split_from_nonempty sep "" s) as Hne.
      specialize (IH ""). destruct (split_from sep "" s) as [|p ps]; [congruence|].
      change (String.concat (String sep "") (current :: p :: ps))
        with (current +:+ String sep "" +:+ String.concat (String sep "") (p :: ps)).
      rewrite IH. reflexivity.
    + rewrite IH, append_assoc. reflexivity.
Qed.

Lemma split_from_app sep current a b :
  split_from sep current (a +:+ String sep b)
  = (split_from sep current a ++ split_from sep "" b)%list.
Proof.
  revert current. induction a as [|c a IH]; intros current.
  - change ("" +:+ String sep b) with (String sep b). simpl.
    now rewrite Ascii.eqb_refl.
  - rewrite append_String. simpl. destruct (c =? sep)%char; [|apply IH].
    simpl. f_equal. apply IH.
Qed.

Lemma split_from_no_sep sep current s :
  has_char sep s = false -> split_from sep current s = [current +:+ s].
Proof.
  revert current. induction s as [|c s IH]; intros current; unfold has_char; simpl.
  - now rewrite append_nil_r.
  - intros [Hc Hs]%orb_false_elim. rewrite Ascii.eqb_sym, Hc.
    rewrite (IH _ Hs), append_assoc. reflexivity.
Qed.

(** X13. The space inferred from a database name: for a name made of a
    space, a slash and a type that has no slash, it is the space, also
    when the space itself has slashes. *)
Theorem space_of_database (space type_name : string) :
  has_char "/" type_name = false ->
  space_of (space +:+ "/" +:+ type_name) = space.
Proof.
  intros Hno. unfold space_of, split.
  change ("/" +:+ type_name) with (String "/" type_name).
  rewrite split_from_app, (split_from_no_sep _ _ _ Hno), removelast_last.
  apply (join_split_from "/" "" space).
Qed.

(** X14. A database name without a slash has the empty space, so that
    the default search field of such a database is ["/name"]. *)
Theorem space_of_no_slash (arguments : SearchArguments) :
  has_char "/" (arg_database arguments) = false ->
  space_of (arg_database arguments) = ""
  /\ (arg_search_fields arguments = None ->
      search_fields_of arguments = ["/name"]).
Proof.
  intros Hno.
  assert (Hspace : space_of (arg_database arguments) = "").
  { unfold space_of, split. now rewrite (split_from_no_sep _ _ _ Hno). }
  split; [exact Hspace|]. intros Hnone. unfold search_fields_of.
  now rewrite Hnone, Hspace.
Qed.

Lemma prefix_append (p s : string) : String.prefix p (p +:+ s) = true.
Proof. apply prefix_spec. now exists s. Qed.

Lemma filtered_entity_get entity k :
  dict_get (filtered_entity entity) k
  = if is_probe k then None else dict_get entity k.
Proof.
  unfold filtered_entity. induction entity as [|[k' v] rest IH]; simpl.
  - now destruct (is_probe k).
  - destruct (is_probe k') eqn:Hk'; simpl.
    + rewrite IH. destruct (String.eqb_spec k' k) as [->|_]; [|reflexivity].
      now rewrite Hk'.
    + destruct (String.eqb_spec k' k) as [->|_]; [now rewrite Hk'|exact IH].
Qed.

(** X15. What the scan removes from a matching entity: the probe alias
    of any search field is gone, every key that does not start with
    ["_search_"] keeps its value, and the entries kept are in the order
    they had. *)
Theorem filtered_entity_keeps_fields entity :
  (forall search_field,
     dict_get (filtered_entity entity) (probe_alias search_field) = None)
  /\ (forall k, String.prefix "_search_" k = false ->
                dict_get (filtered_entity entity) k = dict_get entity k)
  /\ sublist (filtered_entity entity) entity.
Proof.
  split; [|split].
  - intros search_field. rewrite filtered_entity_get.
    unfold is_probe, probe_alias. now rewrite prefix_append.
  - intros k Hk. rewrite filtered_entity_get. unfold is_probe. now rewrite Hk.
  - unfold filtered_entity. induction entity as [|kv rest IH]; simpl; [constructor|].
    destruct (negb (is_probe (fst kv))); [now apply sublist_skip|now apply sublist_cons].
Qed.

Lemma fold_set_get (return_fields acc : dict) k v :
  dict_get (fold_left (fun acc kv => dict_set acc (fst kv) (snd kv)) return_fields acc) k
  = Some v ->
  In (k, v) return_fields \/ dict_get acc k = Some v.
Proof.
  revert acc. induction return_fields as [|[k1 v1] rest IH]; intros acc; simpl; [auto|].
  intros H. destruct (IH _ H) as [Hin | Hget]; [auto|]. simpl in Hget.
  destruct (String.eqb_spec k1 k) as [->|Hne].
  - rewrite dict_get_set_eq in Hget. injection Hget as ->. auto.
  - rewrite dict_get_set_ne in Hget by exact Hne. auto.
Qed.

Lemma add_probes_get return_fields search_fields :
  forall q_select k v,
    dict_get (add_probes return_fields search_fields q_select) k = Some v ->
    dict_get q_select k = Some v
    \/ exists search_field,
         In search_field search_fields /\ k = probe_alias search_field
         /\ v = PStr search_field /\ in_values search_field return_fields = false.
Proof.
  induction search_fields as [|f rest IH]; intros q_select k v; simpl; [auto|].
  destruct (in_values f return_fields) eqn:Hin; simpl; intros H;
    destruct (IH _ _ _ H) as [Hget | (g & Hg & Hk & Hv & Hnot)];
    try (right; exists g; auto; fail); [auto|].
  destruct (String.eqb_spec (probe_alias f) k) as [<-|Hne].
  - rewrite dict_get_set_eq in Hget. injection Hget as <-.
    right. exists f. auto.
  - rewrite dict_get_set_ne in Hget by exact Hne. auto.
Qed.

(** X17. The select clause of a search requests nothing but the return
    fields and, under its probe alias, each search field that is not among
    the values of the return fields. *)
Theorem build_q_select_sound return_fields search_fields k v :
  dict_get (build_q_select return_fields search_fields) k = Some v ->
  In (k, v) return_fields
  \/ exists search_field,
       In search_field search_fields /\ k = probe_alias search_field
       /\ v = PStr search_field /\ in_values search_field return_fields = false.
Proof.
  unfold build_q_select. intros H.
  destruct (add_probes_get _ _ _ _ _ H) as [Hget | Hprobe]; [|auto].
  destruct (fold_set_get _ _ _ _ Hget) as [Hin | Hnil]; [auto|discriminate].
Qed.

Lemma dict_set_fresh {V : Type} (d : list (string * V)) k v :
  ~ In k (dict_keys d) -> dict_set d k v = (d ++ [(k, v)])%list.
Proof.
  induction d as [|[k0 v0] d IH]; simpl; intros Hnot; [reflexivity|].
  destruct (String.eqb_spec k0 k) as [->|Hne]; [tauto|]. f_equal. apply IH. tauto.
Qed.

Lemma fold_set_copy (return_fields acc : dict) :
  NoDup (dict_keys (acc ++ return_fields)) ->
  fold_left (fun acc kv => dict_set acc (fst kv) (snd kv)) return_fields acc
  = (acc ++ return_fields)%list.
Proof.
  revert acc. induction return_fields as [|[k v] rest IH]; intros acc Hnd; simpl.
  - now rewrite app_nil_r.
  - assert (Hk : ~ In k (dict_keys acc)).
    { unfold dict_keys in Hnd. rewrite map_app in Hnd. simpl in Hnd.
      apply NoDup_app in Hnd as (_ & Hdisj & _). intros Hin.
      apply (Hdisj k); [now apply list_elem_of_In|apply list_elem_of_here]. }
    rewrite (dict_set_fresh _ _ _ Hk), IH; rewrite <- app_assoc; [reflexivity|exact Hnd].
Qed.

Lemma add_probes_other return_fields search_fields :
  forall q_select k,
    (forall f, In f search_fields -> probe_alias f <> k) ->
    dict_get (add_probes return_fields search_fields q_select) k = dict_get q_select k.
Proof.
  induction search_fields as [|f rest IH]; intros q_select k Hk; simpl; [reflexivity|].
  destruct (in_values f return_fields); simpl; rewrite IH by (intros; apply Hk; now right);
    [reflexivity|].
  apply dict_get_set_ne. apply Hk. now left.
Qed.

Lemma add_probes_probe return_fields search_fields f :
  in_values f return_fields = false ->
  (forall g, In g search_fields -> probe_alias g = probe_alias f -> g = f) ->
  forall q_select,
    In f search_fields \/ dict_get q_select (probe_alias f) = Some (PStr f) ->
    dict_get (add_probes return_fields search_fields q_select) (probe_alias f)
    = Some (PStr f).
Proof.
  intros Hf. induction search_fields as [|g rest IH]; intros Hinj q_select Hstart.
  - destruct Hstart as [[]|H]. exact H.
  - simpl. destruct (in_values g return_fields) eqn:Hg; simpl.
    + apply IH; [intros; apply Hinj; [now right|assumption]|].
      destruct Hstart as [[->|Hin]|H]; [congruence|auto|auto].
    + apply IH; [intros; apply Hinj; [now right|assumption]|].
      destruct (String.eqb_spec (probe_alias g) (probe_alias f)) as [Heq|Hne].
      * right. rewrite (Hinj g (or_introl eq_refl) Heq). apply dict_get_set_eq.
      * destruct Hstart as [[->|Hin]|H]; [congruence|auto|].
        right. now rewrite dict_get_set_ne.
Qed.

(** X18. When the return fields have distinct aliases none of which is
    the probe alias of a search field, and the search fields have distinct
    probe aliases, the select clause of a search keeps every return field
    and requests every search field under some alias. *)
Theorem build_q_select_fetches return_fields search_fields :
  dict_ok return_fields ->
  (forall f, In f search_fields -> ~ In (probe_alias f) (dict_keys return_fields)) ->
  (forall f g, In f search_fields -> In g search_fields ->
               probe_alias f = probe_alias g -> f = g) ->
  (forall k v, In (k, v) return_fields ->
               dict_get (build_q_select return_fields search_fields) k = Some v)
  /\ forall f,
       In f search_fields ->
       exists k, dict_get (build_q_select return_fields search_fields) k
                 = Some (PStr f).
Proof.
  intros Hok Hfree Hinj. unfold build_q_select.
  rewrite (fold_set_copy return_fields [] Hok). simpl.
  assert (Hret : forall k v, In (k, v) return_fields ->
            dict_get (add_probes return_fields search_fields return_fields) k = Some v).
  { intros k v Hin. rewrite add_probes_other.
    - now apply dict_get_In_nodup.
    - intros f Hf Heq. apply (Hfree f Hf). rewrite Heq.
      exact (in_map fst _ _ Hin). }
  split; [exact Hret|]. intros f Hf.
  destruct (in_values f return_fields) eqn:Hin.
  - unfold in_values, dict_values in Hin.
    apply existsb_exists in Hin as (v & Hv & Heq).
    apply in_map_iff in Hv as ([k v'] & <- & Hkv). simpl in Heq.
    destruct v'; try discriminate. simpl in Heq.
    apply String.eqb_eq in Heq. subst s. exists k. now apply Hret.
  - exists (probe_alias f). apply add_probes_probe; [exact Hin| |now left].
    intros g Hg Heq. now apply Hinj.
Qed.

Lemma append_cancel_nil (s t : string) : s +:+ t = s -> t = "".
Proof.
  induction s as [|c s IH]; [auto|]. rewrite append_String. intros [= H]. auto.
Qed.

Lemma text_content_inj (a b : string) :
  [Query.text_content a] = [Query.text_content b] -> a = b.
Proof.
  intros H.
  exact (f_equal (fun l => match l with x :: _ => text x | [] => "" end) H).
Qed.

(** Python's built-in [str.lower()]. *)
Variable lower : string -> string.

(** X20. On a successful execution, with the requested limit and the
    given offset (500 and 0 when left out) sent to the executor, the
    continuation instruction is there exactly when the executor returned
    as many entities as the limit: a result longer than the limit carries
    no instruction either. *)
Theorem handle_search_continuation_iff fibery_client arguments entities
    limit offset body :
  limit = default 500 (arg_limit arguments) ->
  offset = default 0 (arg_offset arguments) ->
  query fibery_client
    (PDict [("q/from", PStr (arg_database arguments));
            ("q/select", PDict (q_select_of arguments));
            ("q/limit", PInt limit);
            ("q/offset", PInt offset);
            ("q/order", PList [PStr "fibery/creation-date"; PStr "desc"])])
    PNone
  = Succeeded entities ->
  body
  = "Scanned " +:+ str_of_int (Z.of_nat (length entities))
      +:+ " entities (offset " +:+ str_of_int offset
      +:+ ", limit " +:+ str_of_int limit
      +:+ "). Found "
      +:+ str_of_int (Z.of_nat (length (matching_entities_of lower arguments entities)))
      +:+ " matches:" +:+ String newline (String newline "")
      +:+ py_str (PDict [("success", PBool true);
                         ("result",
                           PList (map PDict
                                    (matching_entities_of lower arguments entities)))]) ->
  (handle_search lower fibery_client arguments
   = [Query.text_content
        (body +:+ String newline (String newline "")
           +:+ "To continue searching, call this tool again with offset="
           +:+ str_of_int (offset + limit) +:+ ".")]
   <-> Z.of_nat (length entities) = limit)
  /\ (handle_search lower fibery_client arguments = [Query.text_content body]
      <-> Z.of_nat (length entities) <> limit).
Proof.
  intros -> -> Hquery ->.
  rewrite (handle_search_succeeded lower fibery_client arguments entities Hquery).
  destruct (Z.eqb_spec (Z.of_nat (length entities)) (default 500 (arg_limit arguments)))
    as [Heq|Hneq].
  - split; split; auto; try contradiction.
    intros H%text_content_inj. now apply append_cancel_nil in H.
  - split; split; auto; try contradiction.
    + intros H%text_content_inj. rewrite append_nil_r in H. symmetry in H.
      now apply append_cancel_nil in H.
    + intros _. now rewrite append_nil_r.
Qed.

Lemma in_values_self (f : string) (return_fields : dict) k :
  in_values f ((k, PStr f) :: return_fields) = true.
Proof. unfold in_values. simpl. now rewrite String.eqb_refl. Qed.

(** X19. A search with no search fields and no return fields (omitted or
    empty) requests the name and the id and adds no probe, and an entity
    without the probe key is matched on the value of its ["Name"] alias,
    or, without that alias, on a key equal to the name field's path. *)
Theorem default_search_looks_at_name arguments :
  (arg_search_fields arguments = None \/ arg_search_fields arguments = Some []) ->
  (arg_return_fields arguments = None \/ arg_return_fields arguments = Some []) ->
  q_select_of arguments
  = [("Name", PStr (space_of (arg_database arguments) +:+ "/name"));
     ("Id", PStr "fibery/id")]
  /\ forall entity,
       dict_get entity
         (probe_alias (space_of (arg_database arguments) +:+ "/name")) = None ->
       match_found lower (q_select_of arguments) (lower (arg_query arguments)) entity
         (search_fields_of arguments)
       = value_matches lower (lower (arg_query arguments))
           match dict_get entity "Name" with
           | Some value => value
           | None =>
               direct_value entity (space_of (arg_database arguments) +:+ "/name")
           end.
Proof.
  intros Hsf Hrf.
  assert (Hfields : search_fields_of arguments
                    = [space_of (arg_database arguments) +:+ "/name"]).
  { unfold search_fields_of. now destruct Hsf as [-> | ->]. }
  assert (Hreturn : return_fields_of arguments
                    = [("Name", PStr (space_of (arg_database arguments) +:+ "/name"));
                       ("Id", PStr "fibery/id")]).
  { unfold return_fields_of. now destruct Hrf as [-> | ->]. }
  assert (Hselect : q_select_of arguments
                    = [("Name", PStr (space_of (arg_database arguments) +:+ "/name"));
                       ("Id", PStr "fibery/id")]).
  { unfold q_select_of, build_q_select. rewrite Hfields, Hreturn.
    cbn [fold_left fst snd dict_set String.eqb Ascii.eqb Bool.eqb andb add_probes].
    now rewrite in_values_self. }
  split; [exact Hselect|]. intros entity Hprobe.
  rewrite Hselect, Hfields. cbn [match_found]. unfold field_value_of.
  rewrite Hprobe. cbn [find_alias eq_str]. rewrite String.eqb_refl.
  cbn [String.eqb negb].
  now destruct (value_matches _ _ _).
Qed.

End SearchFacts.

(** ** The further properties on the scenarios *)

Section FurtherScenarios.

Lemma mixed_select_ok : dict_ok Scenario2.mixed_select.
Proof. apply (bool_decide_unpack _). vm_compute. exact I. Qed.

Lemma mixed_select_run :
  Query.get_rich_text_fields Scenario2.mixed_select Scenario.sales_database
  = Return (Scenario.name_worklist, Scenario2.mixed_safe_select).
Proof. vm_compute. reflexivity. Qed.

Lemma get_rich_text_fields_entrywise_witness :
  dict_ok Scenario2.mixed_select
  /\ Query.get_rich_text_fields Scenario2.mixed_select Scenario.sales_database
     = Return (Scenario.name_worklist, Scenario2.mixed_safe_select)
  /\ Scenario2.mixed_safe_select
     = map (Detection.rewritten Scenario.sales_database) Scenario2.mixed_select
  /\ Scenario.name_worklist
     = omap (Detection.recorded Scenario.sales_database) Scenario2.mixed_select.
Proof.
  split; [exact mixed_select_ok|]. split; [exact mixed_select_run|].
  exact (get_rich_text_fields_entrywise Scenario.sales_database _ _ _
           mixed_select_ok mixed_select_run).
Defined.

Lemma get_rich_text_fields_idempotent_witness :
  dict_ok Scenario2.mixed_select
  /\ Query.get_rich_text_fields Scenario2.mixed_select Scenario.sales_database
     = Return (Scenario.name_worklist, Scenario2.mixed_safe_select)
  /\ Query.get_rich_text_fields Scenario2.mixed_safe_select Scenario.sales_database
     = Return (Scenario.name_worklist, Scenario2.mixed_safe_select).
Proof.
  split; [exact mixed_select_ok|]. split; [exact mixed_select_run|].
  exact (get_rich_text_fields_idempotent Scenario.sales_database _ _ _
           mixed_select_ok mixed_select_run).
Defined.

Lemma get_rich_text_fields_worklist_sound_witness :
  dict_ok Scenario2.mixed_select
  /\ Query.get_rich_text_fields Scenario2.mixed_select Scenario.sales_database
     = Return (Scenario.name_worklist, Scenario2.mixed_safe_select)
  /\ In {| Query.rt_alias := "Name"; Query.rt_name := PStr "Sales/name" |}
        Scenario.name_worklist
  /\ exists spec name,
       PStr "Sales/name" = PStr name
       /\ dict_get Scenario2.mixed_select "Name" = Some spec
       /\ Query.resolves_to spec name
       /\ Query.flagged_rich_text Scenario.sales_database name
       /\ dict_get Scenario2.mixed_safe_select "Name"
          = Some (PList [PStr name; PStr Query.document_secret]).
Proof.
  assert (Hin : In {| Query.rt_alias := "Name"; Query.rt_name := PStr "Sales/name" |}
                   Scenario.name_worklist) by (left; reflexivity).
  split; [exact mixed_select_ok|]. split; [exact mixed_select_run|].
  split; [exact Hin|].
  exact (get_rich_text_fields_worklist_sound Scenario.sales_database _ _ _
           mixed_select_ok mixed_select_run _ Hin).
Defined.

Lemma get_rich_text_fields_leaves_others_witness :
  dict_ok Scenario2.mixed_select
  /\ Query.get_rich_text_fields Scenario2.mixed_select Scenario.sales_database
     = Return (Scenario.name_worklist, Scenario2.mixed_safe_select)
  /\ dict_get Scenario2.mixed_select "Tasks"
     = Some (PDict [("q/from", PStr "Sales/Task")])
  /\ (forall name,
        Query.resolves_to (PDict [("q/from", PStr "Sales/Task")]) name ->
        ~ Query.flagged_rich_text Scenario.sales_database name)
  /\ dict_get Scenario2.mixed_safe_select "Tasks"
     = Some (PDict [("q/from", PStr "Sales/Task")])
  /\ forall field, In field Scenario.name_worklist -> Query.rt_alias field <> "Tasks".
Proof.
  assert (Hget : dict_get Scenario2.mixed_select "Tasks"
                 = Some (PDict [("q/from", PStr "Sales/Task")])) by reflexivity.
  assert (Hnot : forall name,
             Query.resolves_to (PDict [("q/from", PStr "Sales/Task")]) name ->
             ~ Query.flagged_rich_text Scenario.sales_database name).
  { intros name [H | [rest H]]; discriminate. }
  split; [exact mixed_select_ok|]. split; [exact mixed_select_run|].
  split; [exact Hget|]. split; [exact Hnot|].
  exact (get_rich_text_fields_leaves_others Scenario.sales_database _ _ _
           mixed_select_ok mixed_select_run "Tasks" _ Hget Hnot).
Defined.

Lemma handle_query_key_error_witness :
  (dict_get ([("q_select", PDict Scenario.name_select)] : dict) "q_from" = None
   \/ dict_get ([("q_select", PDict Scenario.name_select)] : dict) "q_select" = None
   \/ exists name,
        dict_get ([("q_select", PDict Scenario.name_select)] : dict) "q_from"
        = Some (PStr name)
        /\ databases_by_name (get_schema Scenario.two_client) !! name = None)
  /\ Query.handle_query Scenario.str_result Scenario.two_client
       [("q_select", PDict Scenario.name_select)]
     = Raise KeyError.
Proof.
  assert (H : dict_get ([("q_select", PDict Scenario.name_select)] : dict) "q_from" = None
              \/ dict_get ([("q_select", PDict Scenario.name_select)] : dict) "q_select"
                 = None
              \/ exists name,
                   dict_get ([("q_select", PDict Scenario.name_select)] : dict) "q_from"
                   = Some (PStr name)
                   /\ databases_by_name (get_schema Scenario.two_client) !! name = None)
    by (left; reflexivity).
  split; [exact H|].
  exact (handle_query_key_error Scenario.str_result Scenario.two_client _ H).
Defined.

Lemma name_arguments_ok :
  forall q_select,
    dict_get Scenario.name_arguments "q_select" = Some (PDict q_select) ->
    dict_ok q_select.
Proof. intros q_select [= <-]. exact name_select_ok. Qed.

Lemma handle_query_resolves_handles_witness :
  (forall q_select,
     dict_get Scenario.name_arguments "q_select" = Some (PDict q_select) ->
     dict_ok q_select)
  /\ Query.build_query Scenario2.handle_client Scenario.name_arguments
     = Return (Scenario.name_worklist, Scenario.name_document)
  /\ query Scenario2.handle_client (PDict Scenario.name_document)
       (dict_get_default Scenario.name_arguments "q_params" PNone)
     = Succeeded Scenario2.handle_entities
  /\ (forall e f, In e Scenario2.handle_entities -> In f Scenario.name_worklist ->
                  Query.has_handle e f = true)
  /\ exists resolved,
       Query.handle_query Scenario.str_result Scenario2.handle_client
         Scenario.name_arguments
       = Return [Query.text_content (Scenario.str_result (Succeeded resolved))]
       /\ Forall2
            (fun entity r =>
               dict_keys r = dict_keys entity
               /\ (forall f, In f Scenario.name_worklist ->
                     dict_get r (Query.rt_alias f)
                     = Some (PStr (get_document_content Scenario2.handle_client
                                     (dict_get_default entity (Query.rt_alias f) PNone))))
               /\ (forall k, ~ In k (map Query.rt_alias Scenario.name_worklist) ->
                     dict_get r k = dict_get entity k))
            Scenario2.handle_entities resolved.
Proof.
  assert (Hbuild : Query.build_query Scenario2.handle_client Scenario.name_arguments
                   = Return (Scenario.name_worklist, Scenario.name_document))
    by (vm_compute; reflexivity).
  assert (Hquery : query Scenario2.handle_client (PDict Scenario.name_document)
                     (dict_get_default Scenario.name_arguments "q_params" PNone)
                   = Succeeded Scenario2.handle_entities) by reflexivity.
  assert (Hall : forall e f, In e Scenario2.handle_entities ->
                   In f Scenario.name_worklist -> Query.has_handle e f = true).
  { intros e f [<- | [<- | []]] [<- | []]; reflexivity. }
  split; [exact name_arguments_ok|]. split; [exact Hbuild|]. split; [exact Hquery|].
  split; [exact Hall|].
  exact (handle_query_resolves_handles Scenario.str_result Scenario2.handle_client
           Scenario.name_arguments _ _ _ name_arguments_ok Hbuild Hquery Hall).
Defined.

(** The resolved result of that run, as text. *)
Example handle_query_resolved_text :
  Query.handle_query Scenario.str_result Scenario2.handle_client Scenario.name_arguments
  = Return [Query.text_content
              ("{'success': True, 'result': [{'Name': 'Hello', 'Amount': 3}, "
                 +:+ "{'Id': '7', 'Name': 'Hello'}]}")].
Proof. vm_compute. reflexivity. Qed.

Lemma handle_query_without_rich_text_witness :
  Query.build_query Scenario2.handle_client Scenario2.plain_arguments
  = Return ([], Scenario2.plain_document)
  /\ dict_get Scenario2.plain_arguments "q_from" = Some (PStr "Sales/Deal")
  /\ databases_by_name (get_schema Scenario2.handle_client) !! "Sales/Deal"
     = Some Scenario.sales_database
  /\ dict_get Scenario2.plain_arguments "q_select" = Some (PDict Scenario2.plain_select)
  /\ (forall field_alias spec field_name,
        In (field_alias, spec) Scenario2.plain_select ->
        Query.resolves_to spec field_name ->
        ~ Query.flagged_rich_text Scenario.sales_database field_name)
  /\ ([] : list Query.RichTextFieldRef) = []
  /\ dict_get Scenario2.plain_document "q/select" = Some (PDict Scenario2.plain_select)
  /\ forall entities,
       query Scenario2.handle_client (PDict Scenario2.plain_document)
         (dict_get_default Scenario2.plain_arguments "q_params" PNone)
       = Succeeded entities ->
       Query.handle_query Scenario.str_result Scenario2.handle_client
         Scenario2.plain_arguments
       = Return [Query.text_content (Scenario.str_result (Succeeded entities))].
Proof.
  assert (Hbuild : Query.build_query Scenario2.handle_client Scenario2.plain_arguments
                   = Return ([], Scenario2.plain_document)) by (vm_compute; reflexivity).
  assert (Hfrom : dict_get Scenario2.plain_arguments "q_from" = Some (PStr "Sales/Deal"))
    by reflexivity.
  assert (Hdb : databases_by_name (get_schema Scenario2.handle_client) !! "Sales/Deal"
                = Some Scenario.sales_database) by (vm_compute; reflexivity).
  assert (Hsel : dict_get Scenario2.plain_arguments "q_select"
                 = Some (PDict Scenario2.plain_select)) by reflexivity.
  assert (Hplain : forall field_alias spec field_name,
             In (field_alias, spec) Scenario2.plain_select ->
             Query.resolves_to spec field_name ->
             ~ Query.flagged_rich_text Scenario.sales_database field_name).
  { intros a spec n Hin Hres (field & Hfield & Hrich).
    destruct Hin as [Heq | [Heq | []]]; injection Heq as <- <-;
      (destruct Hres as [Hs | [rest Hs]]; [injection Hs as <-|discriminate]);
      vm_compute in Hfield;
      first [discriminate Hfield | injection Hfield as <-; discriminate Hrich]. }
  split; [exact Hbuild|]. split; [exact Hfrom|]. split; [exact Hdb|].
  split; [exact Hsel|]. split; [exact Hplain|].
  exact (handle_query_without_rich_text Scenario.str_result Scenario2.handle_client
           Scenario2.plain_arguments _ _ _ _ _ Hbuild Hfrom Hdb Hsel Hplain).
Defined.

Lemma handle_query_single_text_witness :
  Query.handle_query Scenario.str_result Scenario.two_client Scenario.name_arguments
  = Return [Query.text_content
              ("Unable to get document content for entity {'Id': '7'}. "
                 +:+ "Field: {'alias': 'Name', 'name': 'Sales/name'}")]
  /\ exists s,
       [Query.text_content
          ("Unable to get document content for entity {'Id': '7'}. "
             +:+ "Field: {'alias': 'Name', 'name': 'Sales/name'}")]
       = [{| type := "text"; text := s |}].
Proof.
  split; [exact handle_query_diagnostic|].
  exact (handle_query_single_text Scenario.str_result Scenario.two_client
           Scenario.name_arguments _ handle_query_diagnostic).
Defined.

Lemma space_of_database_witness :
  has_char "/" "Task" = false
  /\ Search.space_of ("Software Development" +:+ "/" +:+ "Task")
     = "Software Development".
Proof.
  split; [reflexivity|].
  apply (space_of_database "Software Development" "Task"). reflexivity.
Defined.

Lemma space_of_no_slash_witness :
  has_char "/" (Search.arg_database Scenario2.task_arguments) = false
  /\ Search.space_of (Search.arg_database Scenario2.task_arguments) = ""
  /\ (Search.arg_search_fields Scenario2.task_arguments = None ->
      Search.search_fields_of Scenario2.task_arguments = ["/name"]).
Proof.
  split; [reflexivity|].
  apply (space_of_no_slash Scenario2.task_arguments). reflexivity.
Defined.

Lemma build_q_select_sound_witness :
  dict_get (Search.build_q_select Scenario2.id_fields ["Sales/name"])
    "_search_Sales_name" = Some (PStr "Sales/name")
  /\ (In ("_search_Sales_name", PStr "Sales/name") Scenario2.id_fields
      \/ exists search_field,
           In search_field ["Sales/name"]
           /\ "_search_Sales_name" = Search.probe_alias search_field
           /\ PStr "Sales/name" = PStr search_field
           /\ Search.in_values search_field Scenario2.id_fields = false).
Proof.
  split; [reflexivity|].
  apply (build_q_select_sound Scenario2.id_fields ["Sales/name"]). reflexivity.
Defined.

Lemma build_q_select_fetches_witness :
  dict_ok Scenario2.id_fields
  /\ (forall f, In f ["Sales/name"; "Sales/amount"] ->
                ~ In (Search.probe_alias f) (dict_keys Scenario2.id_fields))
  /\ (forall f g, In f ["Sales/name"; "Sales/amount"] ->
                  In g ["Sales/name"; "Sales/amount"] ->
                  Search.probe_alias f = Search.probe_alias g -> f = g)
  /\ (forall k v, In (k, v) Scenario2.id_fields ->
                  dict_get (Search.build_q_select Scenario2.id_fields
                              ["Sales/name"; "Sales/amount"]) k = Some v)
  /\ forall f,
       In f ["Sales/name"; "Sales/amount"] ->
       exists k, dict_get (Search.build_q_select Scenario2.id_fields
                             ["Sales/name"; "Sales/amount"]) k
                 = Some (PStr f).
Proof.
  assert (Hok : dict_ok Scenario2.id_fields) by apply NoDup_singleton.
  assert (Hfree : forall f, In f ["Sales/name"; "Sales/amount"] ->
                    ~ In (Search.probe_alias f) (dict_keys Scenario2.id_fields)).
  { intros f [<- | [<- | []]] [H | []]; discriminate. }
  assert (Hinj : forall f g, In f ["Sales/name"; "Sales/amount"] ->
                   In g ["Sales/name"; "Sales/amount"] ->
                   Search.probe_alias f = Search.probe_alias g -> f = g).
  { intros f g [<- | [<- | []]] [<- | [<- | []]] H; try reflexivity; discriminate. }
  split; [exact Hok|]. split; [exact Hfree|]. split; [exact Hinj|].
  exact (build_q_select_fetches Scenario2.id_fields ["Sales/name"; "Sales/amount"]
           Hok Hfree Hinj).
Defined.

Lemma default_search_looks_at_name_witness :
  (Search.arg_search_fields Scenario.empty_query_arguments = None
   \/ Search.arg_search_fields Scenario.empty_query_arguments = Some [])
  /\ (Search.arg_return_fields Scenario.empty_query_arguments = None
      \/ Search.arg_return_fields Scenario.empty_query_arguments = Some [])
  /\ Search.q_select_of Scenario.empty_query_arguments
     = [("Name", PStr (Search.space_of
                         (Search.arg_database Scenario.empty_query_arguments)
                       +:+ "/name"));
        ("Id", PStr "fibery/id")]
  /\ forall entity,
       dict_get entity
         (Search.probe_alias
            (Search.space_of (Search.arg_database Scenario.empty_query_arguments)
             +:+ "/name")) = None ->
       Search.match_found Search.ascii_lower
         (Search.q_select_of Scenario.empty_query_arguments)
         (Search.ascii_lower (Search.arg_query Scenario.empty_query_arguments)) entity
         (Search.search_fields_of Scenario.empty_query_arguments)
       = Search.value_matches Search.ascii_lower
           (Search.ascii_lower (Search.arg_query Scenario.empty_query_arguments))
           match dict_get entity "Name" with
           | Some value => value
           | None =>
               Search.direct_value entity
                 (Search.space_of (Search.arg_database Scenario.empty_query_arguments)
                  +:+ "/name")
           end.
Proof.
  assert (Hsf : Search.arg_search_fields Scenario.empty_query_arguments = None
                \/ Search.arg_search_fields Scenario.empty_query_arguments = Some [])
    by (left; reflexivity).
  assert (Hrf : Search.arg_return_fields Scenario.empty_query_arguments = None
                \/ Search.arg_return_fields Scenario.empty_query_arguments = Some [])
    by (left; reflexivity).
  split; [exact Hsf|]. split; [exact Hrf|].
  exact (default_search_looks_at_name Search.ascii_lower
           Scenario.empty_query_arguments Hsf Hrf).
Defined.

Lemma handle_search_continuation_iff_witness :
  2 = default 500 (Search.arg_limit Scenario.acme_arguments)
  /\ 4 = default 0 (Search.arg_offset Scenario.acme_arguments)
  /\ query Scenario.acme_client (PDict Scenario.acme_document) PNone
     = Succeeded Scenario.acme_entities
  /\ (Search.handle_search Search.ascii_lower Scenario.acme_client
        Scenario.acme_arguments
      = [Query.text_content
           (Scenario.acme_body +:+ String newline (String newline "")
              +:+ "To continue searching, call this tool again with offset="
              +:+ "6" +:+ ".")]
      <-> Z.of_nat (length Scenario.acme_entities) = 2)
  /\ (Search.handle_search Search.ascii_lower Scenario.acme_client
        Scenario.acme_arguments
      = [Query.text_content Scenario.acme_body]
      <-> Z.of_nat (length Scenario.acme_entities) <> 2).
Proof.
  split; [reflexivity|]. split; [reflexivity|]. split; [reflexivity|].
  apply (handle_search_continuation_iff Search.ascii_lower Scenario.acme_client
           Scenario.acme_arguments Scenario.acme_entities 2 4 Scenario.acme_body);
    reflexivity.
Defined.

End FurtherScenarios.
